(** * FetchMocker: the matching and dispatch engine of fetchMockServer.js

    A shallow embedding of [class FetchMocker] (src/fetchMockServer.js):
    the namespace registry, the intercepted [fetch], [routeRequest],
    [executeHandler], [matchPath], [matchParams], [getCalls] and the
    lifecycle operations, followed by the properties of the
    specification that were checked against them.

    Conventions of the embedding.
    - A JavaScript string is a [string] of 8-bit characters; case mapping
      is the ASCII one.
    - A plain object is an association list in creation order
      ([jsobj]); [Object_entries] gives the enumeration order of
      ECMAScript (array-index keys first, ascending, then the others in
      creation order); a [Map] is an association list in insertion order.
    - A call that may throw returns a [completion]; the console is a list
      of entries threaded through the operations.
    - The built-ins of the host ([URL], [RegExp], [JSON], [URLSearchParams],
      [Response]) are not part of the repository: they are the members of
      the class [Platform], and what is assumed about them is the class
      [PlatformLaws].  [Node.platform] is a reference instance covering a
      fragment of their behaviour, used to evaluate the code on concrete
      requests. *)

From Stdlib Require Import List String Ascii ZArith NArith Bool Lia Arith.
From Stdlib Require Import DecimalString.
From Stdlib Require Import Permutation Sorted.
Import ListNotations.
Open Scope string_scope.
Open Scope Z_scope.

Set Implicit Arguments.
Set Warnings "-register-all".

(* ================================================================= *)
(** ** Strings *)

Definition upper_char (c : ascii) : ascii :=
  let n := nat_of_ascii c in
  if andb (Nat.leb 97 n) (Nat.leb n 122) then ascii_of_nat (n - 32) else c.

Definition lower_char (c : ascii) : ascii :=
  let n := nat_of_ascii c in
  if andb (Nat.leb 65 n) (Nat.leb n 90) then ascii_of_nat (n + 32) else c.

Fixpoint map_string (f : ascii -> ascii) (s : string) : string :=
  match s with
  | EmptyString => EmptyString
  | String c r => String (f c) (map_string f r)
  end.

(** [s.toUpperCase()], [s.toLowerCase()] *)
Definition toUpperCase : string -> string := map_string upper_char.
Definition toLowerCase : string -> string := map_string lower_char.

Fixpoint startsWith (p s : string) : bool :=
  match p, s with
  | EmptyString, _ => true
  | String a p', String b s' => andb (Ascii.eqb a b) (startsWith p' s')
  | String _ _, EmptyString => false
  end.

(** [s.includes(sub)] *)
Fixpoint includes (s sub : string) : bool :=
  orb (startsWith sub s)
      match s with
      | EmptyString => false
      | String _ r => includes r sub
      end.

(** [s.split(sep)] for a one-character separator. *)
Fixpoint split (sep : ascii) (s : string) : list string :=
  match s with
  | EmptyString => [EmptyString]
  | String c r =>
      if Ascii.eqb c sep then EmptyString :: split sep r
      else match split sep r with
           | [] => [String c EmptyString]
           | h :: t => String c h :: t
           end
  end.

(** [l.join(sep)] *)
Fixpoint join (sep : string) (l : list string) : string :=
  match l with
  | [] => ""
  | [x] => x
  | x :: r => x ++ sep ++ join sep r
  end.

(** [s] cut at the first character satisfying [stop]: what is before, and
    what is left from that character on. *)
Fixpoint break (stop : ascii -> bool) (s : string) : string * string :=
  match s with
  | EmptyString => ("", "")
  | String c r =>
      if stop c then ("", s)
      else let (a, b) := break stop r in (String c a, b)
  end.

Fixpoint all_chars (f : ascii -> bool) (s : string) : bool :=
  match s with
  | EmptyString => true
  | String c r => f c && all_chars f r
  end.

(** [s] without its prefix [p], when it starts with it. *)
Fixpoint strip_prefix (p s : string) : option string :=
  match p, s with
  | EmptyString, _ => Some s
  | String a p', String b s' => if Ascii.eqb a b then strip_prefix p' s' else None
  | String _ _, EmptyString => None
  end.

Definition is_slash (c : ascii) : bool := Ascii.eqb c "/".

(** Truthiness of a string: the empty string is falsy. *)
Definition truthy (s : string) : bool :=
  match s with EmptyString => false | _ => true end.

(** The one-character string of a double quote. *)
Definition dquote : string := String (ascii_of_nat 34) EmptyString.

Definition string_of_Z (z : Z) : string := NilZero.string_of_int (Z.to_int z).

(* ================================================================= *)
(** ** Values, objects and completions *)

Inductive jsval : Type :=
| VUndef
| VNull
| VBool (b : bool)
| VNum (z : Z)
| VStr (s : string)
| VArr (l : list jsval)
| VObj (fields : list (string * jsval))
| VBuiltin (name : string).   (* the member [name] of Object.prototype *)

(** [a === b].  Objects and arrays are compared by reference; the two sides
    of every comparison of the program come from different allocations (a
    decoded request and a registration), so they are never identical. *)
Definition strict_eq (a b : jsval) : bool :=
  match a, b with
  | VUndef, VUndef => true
  | VNull, VNull => true
  | VBool x, VBool y => Bool.eqb x y
  | VNum x, VNum y => Z.eqb x y
  | VStr x, VStr y => String.eqb x y
  | VBuiltin x, VBuiltin y => String.eqb x y
  | _, _ => false
  end.

(** How a computation ends without a value.  For a [throw], what it
    carries, as far as the program looks at it: it only reads [e.message]
    into a log line.  [NeverSettles] is not a value thrown: the promise
    awaited never settles, so that nothing after the [await] runs, no
    [catch] block either, and the caller is left waiting. *)
Inductive thrown : Type :=
| JsError (name message : string)      (* an Error object *)
| ThrownNullish                        (* [throw null], [throw undefined] *)
| ThrownOther (messageText : string)   (* any other value; the text of [`${e.message}`] *)
| NeverSettles.                        (* an awaited promise that never settles *)

Inductive completion (A : Type) : Type :=
| Normal (a : A)
| Throw (e : thrown).
Arguments Normal {A} a.
Arguments Throw {A} e.

Definition bind {A B} (c : completion A) (k : A -> completion B) : completion B :=
  match c with
  | Normal a => k a
  | Throw e => Throw e
  end.

Notation "x <- c ;; k" := (bind c (fun x => k))
  (at level 61, c at next level, right associativity).

(** [e.message] inside a [catch (e)] block; the block is not entered when
    the [await] of the [try] block never settles. *)
Definition error_message (e : thrown) : completion string :=
  match e with
  | JsError _ m => Normal m
  | ThrownNullish =>
      Throw (JsError "TypeError" "Cannot read properties of null (reading 'message')")
  | ThrownOther m => Normal m
  | NeverSettles => Throw NeverSettles
  end.

(** Plain objects: own properties in creation order. *)
Definition jsobj (A : Type) : Type := list (string * A).

Fixpoint own_get {A} (o : jsobj A) (k : string) : option A :=
  match o with
  | [] => None
  | (k', v) :: r => if String.eqb k' k then Some v else own_get r k
  end.

(** [o[k] = v]: an existing property keeps its place. *)
Fixpoint obj_set {A} (o : jsobj A) (k : string) (v : A) : jsobj A :=
  match o with
  | [] => [(k, v)]
  | (k', v') :: r =>
      if String.eqb k' k then (k', v) :: r else (k', v') :: obj_set r k v
  end.

(** [Object.fromEntries(entries)] *)
Definition Object_fromEntries {A} (es : list (string * A)) : jsobj A :=
  fold_left (fun o kv => obj_set o (fst kv) (snd kv)) es [].

(** The properties every plain object inherits from [Object.prototype]. *)
Definition Object_prototype_names : list string :=
  [ "constructor"; "__proto__"; "hasOwnProperty"; "isPrototypeOf";
    "propertyIsEnumerable"; "toLocaleString"; "toString"; "valueOf";
    "__defineGetter__"; "__defineSetter__"; "__lookupGetter__";
    "__lookupSetter__" ].

Definition inherited (k : string) : bool :=
  existsb (String.eqb k) Object_prototype_names.

(** Array indices: the canonical decimal numerals below 2^32 - 1. *)
Definition digit_of (c : ascii) : option N :=
  let n := N_of_ascii c in
  if andb (N.leb 48 n) (N.leb n 57) then Some (n - 48)%N else None.

Fixpoint digits_value (s : string) (acc : N) : option N :=
  match s with
  | EmptyString => Some acc
  | String c r =>
      match digit_of c with
      | Some d => digits_value r (acc * 10 + d)%N
      | None => None
      end
  end.

Definition array_index (s : string) : option N :=
  match s with
  | EmptyString => None
  | String "0" EmptyString => Some 0%N
  | String "0" _ => None
  | _ => match digits_value s 0%N with
         | Some n => if N.ltb n 4294967295 then Some n else None
         | None => None
         end
  end.

Fixpoint insert_index {A} (n : N) (kv : string * A)
         (l : list (N * (string * A))) : list (N * (string * A)) :=
  match l with
  | [] => [(n, kv)]
  | (m, kv') :: r =>
      if N.leb n m then (n, kv) :: l else (m, kv') :: insert_index n kv r
  end.

Fixpoint index_entries {A} (o : jsobj A) : list (N * (string * A)) :=
  match o with
  | [] => []
  | (k, v) :: r =>
      match array_index k with
      | Some n => insert_index n (k, v) (index_entries r)
      | None => index_entries r
      end
  end.

Definition named_entries {A} (o : jsobj A) : list (string * A) :=
  filter (fun kv => match array_index (fst kv) with Some _ => false | None => true end) o.

(** [Object.entries(o)]: array-index keys in ascending order, then the
    other keys in creation order. *)
Definition Object_entries {A} (o : jsobj A) : list (string * A) :=
  map snd (index_entries o) ++ named_entries o.

(** [v[k]] for a decoded value.  Reading a property of [null] or
    [undefined] throws.  Of the inherited members only those of
    [Object.prototype] on plain objects are modelled. *)
Definition js_get (v : jsval) (k : string) : completion jsval :=
  match v with
  | VUndef | VNull =>
      Throw (JsError "TypeError" ("Cannot read properties of null (reading '" ++ k ++ "')"))
  | VObj o =>
      Normal match own_get o k with
             | Some x => x
             | None => if inherited k then VBuiltin k else VUndef
             end
  | VStr s =>
      Normal (if String.eqb k "length" then VNum (Z.of_nat (String.length s))
              else match array_index k with
                   | Some n => match String.get (N.to_nat n) s with
                               | Some c => VStr (String c EmptyString)
                               | None => VUndef
                               end
                   | None => VUndef
                   end)
  | VArr l =>
      Normal (if String.eqb k "length" then VNum (Z.of_nat (List.length l))
              else match array_index k with
                   | Some n => nth (N.to_nat n) l VUndef
                   | None => VUndef
                   end)
  | _ => Normal VUndef
  end.

(** [acc[name] = v] on a plain object: the inherited setter of
    ["__proto__"] ignores a value that is not an object. *)
Definition obj_assign (o : jsobj jsval) (k : string) (v : jsval) : jsobj jsval :=
  if String.eqb k "__proto__" then o else obj_set o k v.

(* ================================================================= *)
(** ** The data of the mock server *)

(** The console: [logger.log], [logger.warn], [logger.error]. *)
Inductive level : Type := LOG | WARN | ERROR.
Definition LogEntry : Type := (level * string)%type.

(** The second argument of [fetch]: [init.method], [init.headers] (a plain
    object of strings) and [init.body]. *)
Record RequestInit : Type := {
  init_method : option string;
  init_headers : option (jsobj string);
  init_body : option string
}.

(** The first argument of [fetch]: a string, or a [Request], of which the
    [url] and the [method] are kept. *)
Inductive FetchInput : Type :=
| InputString (s : string)
| InputRequest (url method : string).

(** What a handler is called with. *)
Record RequestContext : Type := {
  queryParams : jsval;
  bodyParams : jsval;
  params : jsobj jsval
}.

(** What a handler returns: [{ response, status, headers }]. *)
Record HandlerResult : Type := {
  response : jsval;
  res_status : option Z;
  res_headers : option (jsobj string)
}.

(** One call of a handler, by its outcome: it returns a result, returns
    [null]/[undefined] ([None]), throws (or its promise is rejected), or
    returns a promise that never settles ([Throw NeverSettles]).  What a
    handler does besides (keeping a state of its own, calling the mocker)
    is not part of the outcome. *)
Definition Handler : Type := RequestContext -> completion (option HandlerResult).

(** A registered route: [{ handler, ...options }]. *)
Record Route : Type := {
  handler : Handler;
  expectedQueryParams : option (jsobj jsval);
  expectedBodyParams : option (jsobj jsval)
}.

(** The [options] argument of a registration. *)
Record RouteOptions : Type := {
  opt_queryParams : option (jsobj jsval);
  opt_bodyParams : option (jsobj jsval)
}.

Definition no_options : RouteOptions :=
  {| opt_queryParams := None; opt_bodyParams := None |}.

(** The synthetic response handed to the caller. *)
Record Response : Type := {
  status : Z;
  headers : jsobj string;
  body : jsval
}.

(** A parsed URL: the three members the program reads. *)
Record URL : Type := {
  hostname : string;
  pathname : string;
  searchParams : list (string * string)
}.

Record Call : Type := {
  call_url : string;
  call_method : string;
  call_options : RequestInit
}.

(** A [Map] from route keys to routes, in insertion order. *)
Definition RouteMap : Type := list (string * Route).

Definition Map_has (m : RouteMap) (k : string) : bool :=
  match own_get m k with Some _ => true | None => false end.

(** [m.set(k, v)] *)
Definition Map_set (m : RouteMap) (k : string) (v : Route) : RouteMap :=
  obj_set m k v.

(** Which function [global.fetch] is. *)
Inductive FetchImpl : Type := OriginalFetch | MockFetch.

Record FetchMocker : Type := {
  namespaces : jsobj RouteMap;
  calls : list Call;
  isServerRunning : bool;
  global_fetch : FetchImpl;
  console : list LogEntry
}.

(** [new FetchMocker()] *)
Definition constructor : FetchMocker :=
  {| namespaces := []; calls := []; isServerRunning := false;
     global_fetch := OriginalFetch; console := [] |}.

Definition logged (st : FetchMocker) (es : list LogEntry) : FetchMocker :=
  {| namespaces := namespaces st; calls := calls st;
     isServerRunning := isServerRunning st; global_fetch := global_fetch st;
     console := console st ++ es |}.

(* ================================================================= *)
(** ** The host platform *)

Class Platform : Type := {
  (** [new URL(url)]; throws a TypeError on an invalid URL. *)
  URL_new : string -> completion URL;
  (** the entries of [new URLSearchParams(body)] *)
  URLSearchParams_entries : string -> list (string * string);
  (** [JSON.parse(text)]: the value, or the message of the SyntaxError
      it throws. *)
  JSON_parse : string -> jsval + string;
  (** [JSON.stringify(v)] *)
  JSON_stringify : jsval -> jsval;
  (** [subject.match(new RegExp(source))]: [None] for [null], else the
      captures [match[1]], [match[2]], ...; throws a SyntaxError when
      [source] is not a regular expression. *)
  RegExp_match : string -> string -> completion (option (list jsval));
  (** [new Response(body, { status, headers: new Headers(headers) })] *)
  Response_new : jsval -> Z -> jsobj string -> completion Response
}.

(* ================================================================= *)
(** ** The methods of [FetchMocker] *)

Section Methods.
Context {P : Platform}.

(** The scan of [routePath.replace(/:([^/]+)/g, ...)]: a colon followed by
    at least one character other than a slash starts a key, which runs to
    the next slash or to the end; every key is replaced by the text of a
    capturing group and pushed on [paramNames].  [cur] is the key being
    read, if any. *)
Fixpoint replace_params (s : string) (cur : option string) : string * list string :=
  match s with
  | EmptyString =>
      match cur with
      | None => ("", [])
      | Some k => ("([^/]+)", [k])
      end
  | String c r =>
      match cur with
      | Some k =>
          if Ascii.eqb c "/" then
            let (out, names) := replace_params r None in
            ("([^/]+)/" ++ out, k :: names)
          else replace_params r (Some (k ++ String c ""))
      | None =>
          if Ascii.eqb c ":" then
            match r with
            | EmptyString => (":", [])
            | String d _ =>
                if Ascii.eqb d "/" then
                  let (out, names) := replace_params r None in
                  (String ":" out, names)
                else replace_params r (Some "")
            end
          else
            let (out, names) := replace_params r None in
            (String c out, names)
      end
  end.

(** [paramNames.reduce((acc, name, index) => { acc[name] = match[index + 1]; ... }, {})]
    with [captures] the list [match[1]], [match[2]], ... *)
Fixpoint reduce_params (acc : jsobj jsval) (names : list string) (index : nat)
         (captures : list jsval) : jsobj jsval :=
  match names with
  | [] => acc
  | name :: rest =>
      reduce_params (obj_assign acc name (nth index captures VUndef))
                    rest (S index) captures
  end.

(** [matchPath(urlPath, routePath)]: [None] is [false], [Some params] is
    [{ params }]. *)
Definition matchPath (urlPath routePath : string) : completion (option (jsobj jsval)) :=
  let (regexPath, paramNames) := replace_params routePath None in
  m <- RegExp_match ("^" ++ regexPath ++ "$") urlPath ;;
  match m with
  | None => Normal None
  | Some captures => Normal (Some (reduce_params [] paramNames 0 captures))
  end.

(** [Object.entries(expectedParams).every(([key, value]) => params[key] === value)] *)
Fixpoint every_param (observed : jsval) (es : list (string * jsval)) : completion bool :=
  match es with
  | [] => Normal true
  | (key, value) :: rest =>
      x <- js_get observed key ;;
      if strict_eq x value then every_param observed rest else Normal false
  end.

(** [matchParams(params, expectedParams)] *)
Definition matchParams (observed : jsval) (expectedParams : option (jsobj jsval))
  : completion bool :=
  match expectedParams with
  | None => Normal true
  | Some e => every_param observed (Object_entries e)
  end.

(** The [try] block of [executeHandler], with the lines it logs. *)
Definition executeHandler_try (h : Handler) (ctx : RequestContext)
  : list LogEntry * completion Response :=
  match h ctx with
  | Throw e => ([], Throw e)
  | Normal None =>
      ([], Throw (JsError "TypeError"
                    "Cannot destructure property 'response' of 'result' as it is undefined."))
  | Normal (Some result) =>
      let st := match res_status result with Some s => s | None => 200 end in
      let hs := match res_headers result with Some h => h | None => [] end in
      let contentType :=
        match own_get hs "Content-Type" with
        | Some v => if truthy v then Some v else own_get hs "content-type"
        | None => own_get hs "content-type"
        end in
      let b :=
        match contentType with
        | Some ct =>
            if truthy ct && includes ct "application/json"
            then JSON_stringify (response result)
            else response result
        | None => response result
        end in
      ([(LOG, "Handler executed successfully with status " ++ string_of_Z st ++ ".")],
       Response_new b st hs)
  end.

(** [executeHandler(handler, params)] *)
Definition executeHandler (h : Handler) (ctx : RequestContext)
  : list LogEntry * completion Response :=
  match executeHandler_try h ctx with
  | (l, Normal r) => (l, Normal r)
  | (l, Throw error) =>
      match error_message error with
      | Throw e' => (l, Throw e')
      | Normal m =>
          (app l [(ERROR, "Error executing handler: " ++ m)],
           Response_new (VStr "Server Error") 500 [])
      end
  end.

(** An object of strings as a value. *)
Definition string_object (o : jsobj string) : jsval :=
  VObj (map (fun kv => (fst kv, VStr (snd kv))) o).

(** Lines 84-97 of [routeRequest]: the content type read from the headers. *)
Definition contentType_of (init : RequestInit) : option string :=
  match init_headers init with
  | None => None
  | Some hs =>
      match own_get hs "Content-Type" with
      | Some v =>
          if truthy (toLowerCase v) then Some (toLowerCase v)
          else option_map toLowerCase (own_get hs "content-type")
      | None => option_map toLowerCase (own_get hs "content-type")
      end
  end.

(** Lines 81-98 of [routeRequest]: [bodyParams] and the lines logged. *)
Definition decodeBody (method : string) (init : RequestInit) : list LogEntry * jsval :=
  match init_body init with
  | None => ([], VObj [])
  | Some b =>
      if truthy b && (String.eqb method "POST" || String.eqb method "PUT") then
        match contentType_of init with
        | None => ([], VObj [])
        | Some contentType =>
            if negb (truthy contentType) then ([], VObj [])
            else if includes contentType "application/json" then
              match JSON_parse b with
              | inl v => ([], v)
              | inr message => ([(ERROR, "Error parsing body: " ++ message)], VObj [])
              end
            else if includes contentType "application/x-www-form-urlencoded" then
              ([], string_object (Object_fromEntries (URLSearchParams_entries b)))
            else if includes contentType "text/plain" then
              ([], VObj [("text", VStr b)])
            else ([], VObj [])
        end
      else ([], VObj [])
  end.

(** The inner loop of [routeRequest] (lines 103-115) over the routes of one
    namespace.  [Normal (Some r)]: the function returned [r];
    [Normal None]: the loop ended and the outer loop goes on. *)
Fixpoint scanRoutes (namespace : string) (u : URL) (method : string)
         (qp bp : jsval) (routes : list (string * Route))
  : list LogEntry * completion (option Response) :=
  match routes with
  | [] => ([], Normal None)
  | (routeKey, route) :: rest =>
      let parts := split " " routeKey in
      let routeMethod := nth 0 parts "" in
      match nth_error parts 1 with
      | None =>
          ([], Throw (JsError "TypeError"
                        "Cannot read properties of undefined (reading 'replace')"))
      | Some routePath =>
          match matchPath (pathname u) routePath with
          | Throw e => ([], Throw e)
          | Normal match_ =>
              match (if String.eqb routeMethod method then match_ else None) with
              | None => scanRoutes namespace u method qp bp rest
              | Some ps =>
                  match (okq <- matchParams qp (expectedQueryParams route) ;;
                         if okq then matchParams bp (expectedBodyParams route)
                         else Normal false) with
                  | Throw e => ([], Throw e)
                  | Normal false => scanRoutes namespace u method qp bp rest
                  | Normal true =>
                      let (l, r) :=
                        executeHandler (handler route)
                          {| queryParams := qp; bodyParams := bp; params := ps |} in
                      ((LOG, "Route matched: " ++ namespace ++ "/" ++ routePath) :: l,
                       match r with
                       | Normal resp => Normal (Some resp)
                       | Throw e => Throw e
                       end)
                  end
              end
          end
      end
  end.

(** The outer loop of [routeRequest] (lines 100-117) over
    [Object.entries(this.namespaces)]. *)
Fixpoint scanNamespaces (u : URL) (method : string) (qp bp : jsval)
         (entries : list (string * RouteMap))
  : list LogEntry * completion (option Response) :=
  match entries with
  | [] => ([], Normal None)
  | (namespace, routes) :: rest =>
      if includes (hostname u) namespace then
        match scanRoutes namespace u method qp bp routes with
        | (l, Normal None) =>
            let (l', r) := scanNamespaces u method qp bp rest in (app l l', r)
        | found => found
        end
      else scanNamespaces u method qp bp rest
  end.

(** [routeRequest(url, method, init)]; [Normal None] is [null]. *)
Definition routeRequest (nss : jsobj RouteMap) (url method : string) (init : RequestInit)
  : list LogEntry * completion (option Response) :=
  match URL_new url with
  | Throw e => ([], Throw e)
  | Normal urlObj =>
      let qp := string_object (Object_fromEntries (searchParams urlObj)) in
      let (l1, bp) := decodeBody method init in
      let (l2, r) := scanNamespaces urlObj method qp bp (Object_entries nss) in
      (app l1 l2, r)
  end.

Definition input_url (input : FetchInput) : string :=
  match input with
  | InputString s => s
  | InputRequest url _ => url
  end.

(** [(init.method || 'GET').toUpperCase()] *)
Definition request_method (init : RequestInit) : string :=
  toUpperCase match init_method init with
              | Some m => if truthy m then m else "GET"
              | None => "GET"
              end.

(** The function installed by [overrideFetch] (lines 53-65), called on the
    state [st] of the mocker. *)
Definition mockFetch (st : FetchMocker) (input : FetchInput) (init : RequestInit)
  : FetchMocker * completion Response :=
  let url := input_url input in
  let method := request_method init in
  let st1 :=
    {| namespaces := namespaces st;
       calls := app (calls st) [{| call_url := url; call_method := method;
                                   call_options := init |}];
       isServerRunning := isServerRunning st;
       global_fetch := global_fetch st;
       console := app (console st) [(LOG, "Fetch called: " ++ method ++ " " ++ url)] |} in
  match routeRequest (namespaces st1) url method init with
  | (l, Throw e) => (logged st1 l, Throw e)
  | (l, Normal (Some resp)) => (logged st1 l, Normal resp)
  | (l, Normal None) =>
      (logged st1 (app l [(WARN, "No route found for " ++ method ++ " " ++ url
                                  ++ ". Returning 404.")]),
       Response_new (VStr "Not Found") 404 [])
  end.

(** [overrideFetch()] *)
Definition overrideFetch (st : FetchMocker) : FetchMocker :=
  {| namespaces := namespaces st; calls := calls st;
     isServerRunning := isServerRunning st; global_fetch := MockFetch;
     console := console st |}.

(** A call of the global [fetch]: resolved by the mocker, or handed to the
    original function, whose result is outside the program. *)
Inductive FetchOutcome : Type :=
| Intercepted (r : completion Response)
| Delegated.

Definition fetch (st : FetchMocker) (input : FetchInput) (init : RequestInit)
  : FetchMocker * FetchOutcome :=
  match global_fetch st with
  | MockFetch => let (st', r) := mockFetch st input init in (st', Intercepted r)
  | OriginalFetch => (st, Delegated)
  end.

(** [this.namespaces[name]], read through the prototype chain. *)
Inductive Lookup : Type :=
| Own (routes : RouteMap)
| Inherited
| Absent.

Definition namespaces_get (nss : jsobj RouteMap) (name : string) : Lookup :=
  match own_get nss name with
  | Some m => Own m
  | None => if inherited name then Inherited else Absent
  end.

(** [addRoute(namespace, method, path, handler, options)] *)
Definition addRoute (st : FetchMocker) (namespace method path : string)
           (h : Handler) (options : RouteOptions) : completion FetchMocker :=
  let routeKey := method ++ " " ++ path in
  match namespaces_get (namespaces st) namespace with
  | Absent =>
      Throw (JsError "TypeError" "Cannot read properties of undefined (reading 'has')")
  | Inherited =>
      Throw (JsError "TypeError" "this.namespaces[namespace].has is not a function")
  | Own routes =>
      if Map_has routes routeKey then
        Normal (logged st [(WARN, "Route already exists for " ++ method ++ " " ++ path
                                   ++ " in namespace " ++ namespace ++ ".")])
      else
        Normal
          {| namespaces :=
               obj_set (namespaces st) namespace
                 (Map_set routes routeKey
                    {| handler := h;
                       expectedQueryParams := opt_queryParams options;
                       expectedBodyParams := opt_bodyParams options |});
             calls := calls st;
             isServerRunning := isServerRunning st;
             global_fetch := global_fetch st;
             console := app (console st)
                          [(LOG, "Route added: [" ++ method ++ "] " ++ namespace
                                  ++ "/" ++ path)] |}
  end.

(** [namespace(name)]: the state after the call; the object it returns is
    the four functions [ns_get], [ns_post], [ns_put], [ns_delete] at
    [name]. *)
Definition namespace (st : FetchMocker) (name : string) : FetchMocker :=
  match namespaces_get (namespaces st) name with
  | Absent =>
      {| namespaces := obj_set (namespaces st) name [];
         calls := calls st;
         isServerRunning := isServerRunning st;
         global_fetch := global_fetch st;
         console := app (console st) [(LOG, "Namespace " ++ dquote ++ name ++ dquote ++ " created.")] |}
  | _ => st
  end.

Definition ns_get (name : string) (st : FetchMocker) (path : string) (h : Handler)
           (options : RouteOptions) := addRoute st name "GET" path h options.
Definition ns_post (name : string) (st : FetchMocker) (path : string) (h : Handler)
           (options : RouteOptions) := addRoute st name "POST" path h options.
Definition ns_put (name : string) (st : FetchMocker) (path : string) (h : Handler)
           (options : RouteOptions) := addRoute st name "PUT" path h options.
Definition ns_delete (name : string) (st : FetchMocker) (path : string) (h : Handler)
           (options : RouteOptions) := addRoute st name "DELETE" path h options.

(** [reset()] *)
Definition reset (st : FetchMocker) : FetchMocker :=
  {| namespaces := []; calls := []; isServerRunning := false;
     global_fetch := OriginalFetch;
     console := app (console st) [(LOG, "Mock server reset.")] |}.

(** [stop()] *)
Definition stop (st : FetchMocker) : FetchMocker :=
  logged (reset st) [(LOG, "Mock server stopped.")].

(** [start()] *)
Definition start (st : FetchMocker) : FetchMocker :=
  if isServerRunning st then
    logged st [(WARN, "Mock server is already running.")]
  else
    let st1 := overrideFetch st in
    {| namespaces := namespaces st1; calls := calls st1;
       isServerRunning := true; global_fetch := global_fetch st1;
       console := app (console st1) [(LOG, "Mock server started.")] |}.

(** [restart()] *)
Definition restart (st : FetchMocker) : FetchMocker :=
  logged (start (stop st)) [(LOG, "Mock server restarted.")].

(** [getCalls(url)]; [None] is the default [null]. *)
Definition getCalls (st : FetchMocker) (url : option string) : list Call :=
  match url with
  | Some u => if truthy u then filter (fun c => String.eqb (call_url c) u) (calls st)
              else calls st
  | None => calls st
  end.

End Methods.

(* ================================================================= *)
(** ** What is assumed of the platform *)

(** The regular expressions [matchPath] builds from a route path without
    regular-expression syntax of its own, or with dots: literal
    characters, the dot, and the group [([^/]+)] that replaces a
    parameter. *)
Inductive item : Type :=
| Lit (c : ascii)
| Dot
| Group.

Fixpoint render (items : list item) : string :=
  match items with
  | [] => ""
  | Lit c :: r => String c (render r)
  | Dot :: r => String "." (render r)
  | Group :: r => "([^/]+)" ++ render r
  end.

(** The characters with a meaning in the syntax of regular expressions. *)
Definition syntax_chars : list ascii :=
  ["^"; "$"; "\"; "."; "*"; "+"; "?"; "("; ")"; "["; "]"; "{"; "}"; "|"]%char.

Definition syntax_char (c : ascii) : bool := existsb (Ascii.eqb c) syntax_chars.

Definition plain_item (i : item) : bool :=
  match i with
  | Lit c => negb (syntax_char c)
  | Dot | Group => true
  end.

(** The dot matches every character but a line terminator. *)
Definition line_terminator (c : ascii) : bool :=
  let n := nat_of_ascii c in Nat.eqb n 10 || Nat.eqb n 13.

(** A group [([^/]+)] followed by [k]: it takes as many characters other
    than a slash as it can, at least one, and gives characters back until
    [k] matches.  [acc] is what the group has taken. *)
Fixpoint group (k : string -> option (list string)) (acc s : string)
  : option (list string) :=
  match s with
  | EmptyString => None
  | String c s' =>
      if Ascii.eqb c "/" then None
      else
        let acc' := acc ++ String c "" in
        match group k acc' s' with
        | Some caps => Some caps
        | None => option_map (cons acc') (k s')
        end
  end.

(** Matching of a whole subject against [^ items $], with backtracking.
    The result is the list of the captures. *)
Fixpoint rmatch (items : list item) : string -> option (list string) :=
  match items with
  | [] => fun s => match s with EmptyString => Some [] | _ => None end
  | Lit c :: r =>
      fun s => match s with
               | String d s' => if Ascii.eqb c d then rmatch r s' else None
               | EmptyString => None
               end
  | Dot :: r =>
      fun s => match s with
               | String d s' => if line_terminator d then None else rmatch r s'
               | EmptyString => None
               end
  | Group :: r => group (rmatch r) ""
  end.

Class PlatformLaws (P : Platform) : Prop := {
  (** [new Response(text, { status })] with status 404 or 500 and no
      headers is the response with that status and body. *)
  Response_new_plain :
    forall (text : string) (st : Z), st = 404 \/ st = 500 ->
      Response_new (VStr text) st [] =
      Normal {| status := st; headers := []; body := VStr text |};
  (** What [new Response] throws is an Error object. *)
  Response_new_throws :
    forall b st hs e, Response_new b st hs = Throw e ->
                      exists name message, e = JsError name message;
  (** On the expressions of [item] the host matches as [rmatch] does. *)
  RegExp_match_items :
    forall (items : list item) (subject : string),
      forallb plain_item items = true ->
      RegExp_match ("^" ++ render items ++ "$") subject =
      Normal (option_map (map VStr) (rmatch items subject))
}.

(* ================================================================= *)
(** ** A reference platform

    A model of a fragment of the host built-ins, enough to run the code on
    concrete requests.
    - [URL_new] accepts [http://host[:port][/path][?query][#fragment]] and
      the same with [https], where the host is made of letters, digits,
      dots and hyphens and its last label starts with a letter, the path
      of letters, digits, [-], [_], [~] and [/], and the query of pairs
      [key=value] of letters, digits, [-], [_], [.] and [~].  A string
      without a scheme is rejected, as by every host; the other strings
      this instance rejects are outside the fragment.
    - [JSON_parse] reads [null], [true], [false], integers, strings
      without escapes, arrays and objects.
    - [RegExp_match] reads the expressions of [item]; it reports every
      other source as a syntax error, which the host may not do. *)

Module Node.

Definition is_alpha (c : ascii) : bool :=
  let n := nat_of_ascii c in
  (Nat.leb 65 n && Nat.leb n 90) || (Nat.leb 97 n && Nat.leb n 122).

Definition is_digit (c : ascii) : bool :=
  let n := nat_of_ascii c in Nat.leb 48 n && Nat.leb n 57.

Definition is_alnum (c : ascii) : bool := is_alpha c || is_digit c.

Definition one_of (l : string) (c : ascii) : bool :=
  existsb (Ascii.eqb c) (list_ascii_of_string l).

Definition invalid_url {A} : completion A := Throw (JsError "TypeError" "Invalid URL").

(** [key=value] pairs separated by [&]; empty pieces are skipped. *)
Definition pair_of (piece : string) : string * string :=
  let (k, rest) := break (Ascii.eqb "=") piece in
  (k, match rest with String _ v => v | EmptyString => "" end).

Definition plus_to_space (c : ascii) : ascii :=
  if Ascii.eqb c "+" then " "%char else c.

Definition parse_pairs (s : string) : list (string * string) :=
  map pair_of (filter truthy (split "&" s)).

Definition host_ok (host : string) : bool :=
  truthy host && all_chars (fun c => is_alnum c || one_of "-." c) host &&
  match rev (split "." host) with
  | String c _ :: _ => is_alpha c
  | _ => false
  end.

Definition path_char (c : ascii) : bool := is_alnum c || one_of "-_~/" c.
Definition query_char (c : ascii) : bool := is_alnum c || one_of "-_.~=&" c.

Definition after_scheme (s : string) : option string :=
  if startsWith "http://" (toLowerCase (substring 0 7 s))
  then Some (substring 7 (String.length s - 7) s)
  else if startsWith "https://" (toLowerCase (substring 0 8 s))
  then Some (substring 8 (String.length s - 8) s)
  else None.

Definition URL_new (s : string) : completion URL :=
  match after_scheme s with
  | None => invalid_url
  | Some rest =>
      let (authority, tail) := break (one_of "/?#") rest in
      let (host, port) := break (Ascii.eqb ":") authority in
      let port_ok := match port with
                     | EmptyString => true
                     | String _ digits => all_chars is_digit digits
                     end in
      let (path, tail') := break (one_of "?#") tail in
      let query := match tail' with
                   | String "?" q => fst (break (Ascii.eqb "#") q)
                   | _ => ""
                   end in
      if host_ok host && port_ok && all_chars path_char path
         && all_chars query_char query
      then Normal {| hostname := toLowerCase host;
                     pathname := if truthy path then path else "/";
                     searchParams := parse_pairs query |}
      else invalid_url
  end.

(** [new URLSearchParams(body)]: [+] is a space; percent escapes are left
    as they are. *)
Definition URLSearchParams_entries (b : string) : list (string * string) :=
  parse_pairs (map_string plus_to_space b).

Definition is_ws (c : ascii) : bool :=
  let n := nat_of_ascii c in
  Nat.eqb n 32 || Nat.eqb n 9 || Nat.eqb n 10 || Nat.eqb n 13.

Fixpoint skip_ws (s : string) : string :=
  match s with
  | String c r => if is_ws c then skip_ws r else s
  | EmptyString => s
  end.

Definition drop (n : nat) (s : string) : string := substring n (String.length s - n) s.

Definition string_char (c : ascii) : bool :=
  Nat.leb 32 (nat_of_ascii c) && negb (one_of "\" c) && negb (Nat.eqb (nat_of_ascii c) 34).

(** The text of a JSON string up to its closing quote, and what follows. *)
Definition parse_string (r : string) : option (string * string) :=
  let (text, rest) := break (fun c => negb (string_char c)) r in
  match rest with
  | String c rest' => if Nat.eqb (nat_of_ascii c) 34 then Some (text, rest') else None
  | EmptyString => None
  end.

Definition digit_Z (c : ascii) : Z := Z.of_nat (nat_of_ascii c - 48).

Definition parse_nat (s : string) : option (Z * string) :=
  let (digits, rest) := break (fun c => negb (is_digit c)) s in
  let fractional := match rest with
                    | String c _ => one_of ".eE" c
                    | EmptyString => false
                    end in
  match digits with
  | EmptyString => None
  | String "0" (String _ _) => None
  | _ => if fractional then None
         else Some (fold_left (fun acc c => acc * 10 + digit_Z c)
                              (list_ascii_of_string digits) 0, rest)
  end.

Fixpoint parse_value (fuel : nat) (s : string) : option (jsval * string) :=
  match fuel with
  | O => None
  | S f =>
      let s := skip_ws s in
      match s with
      | EmptyString => None
      | String c r =>
          if Ascii.eqb c "n" then
            if startsWith "null" s then Some (VNull, drop 4 s) else None
          else if Ascii.eqb c "t" then
            if startsWith "true" s then Some (VBool true, drop 4 s) else None
          else if Ascii.eqb c "f" then
            if startsWith "false" s then Some (VBool false, drop 5 s) else None
          else if Nat.eqb (nat_of_ascii c) 34 then
            match parse_string r with
            | Some (text, rest) => Some (VStr text, rest)
            | None => None
            end
          else if Ascii.eqb c "-" then
            match parse_nat r with
            | Some (n, rest) => Some (VNum (- n), rest)
            | None => None
            end
          else if is_digit c then
            match parse_nat s with
            | Some (n, rest) => Some (VNum n, rest)
            | None => None
            end
          else if Ascii.eqb c "[" then
            match skip_ws r with
            | String "]" rest => Some (VArr [], rest)
            | _ => match parse_elements f r with
                   | Some (l, rest) => Some (VArr l, rest)
                   | None => None
                   end
            end
          else if Ascii.eqb c "{" then
            match skip_ws r with
            | String "}" rest => Some (VObj [], rest)
            | _ => match parse_members f r [] with
                   | Some (o, rest) => Some (VObj o, rest)
                   | None => None
                   end
            end
          else None
      end
  end

with parse_elements (fuel : nat) (s : string) : option (list jsval * string) :=
  match fuel with
  | O => None
  | S f =>
      match parse_value f s with
      | None => None
      | Some (v, rest) =>
          match skip_ws rest with
          | String "]" rest' => Some ([v], rest')
          | String "," rest' =>
              match parse_elements f rest' with
              | Some (l, rest'') => Some (v :: l, rest'')
              | None => None
              end
          | _ => None
          end
      end
  end

with parse_members (fuel : nat) (s : string) (acc : jsobj jsval)
  : option (jsobj jsval * string) :=
  match fuel with
  | O => None
  | S f =>
      match skip_ws s with
      | String c r =>
          if Nat.eqb (nat_of_ascii c) 34 then
            match parse_string r with
            | None => None
            | Some (key, rest) =>
                match skip_ws rest with
                | String ":" rest' =>
                    match parse_value f rest' with
                    | None => None
                    | Some (v, rest'') =>
                        let acc' := obj_set acc key v in
                        match skip_ws rest'' with
                        | String "}" rest3 => Some (acc', rest3)
                        | String "," rest3 => parse_members f rest3 acc'
                        | _ => None
                        end
                    end
                | _ => None
                end
            end
          else None
      | EmptyString => None
      end
  end.

Definition JSON_parse (text : string) : jsval + string :=
  match parse_value (2 * String.length text + 2) text with
  | Some (v, rest) =>
      match skip_ws rest with
      | EmptyString => inl v
      | _ => inr "Unexpected non-whitespace character after JSON"
      end
  | None => inr "Unexpected token in JSON"
  end.

Definition quoted (s : string) : string := dquote ++ s ++ dquote.

(** [JSON.stringify(v)] as text, [None] for [undefined]; the characters of
    a string are written as they are. *)
Fixpoint stringify (v : jsval) : option string :=
  match v with
  | VUndef | VBuiltin _ => None
  | VNull => Some "null"
  | VBool b => Some (if b then "true" else "false")
  | VNum z => Some (string_of_Z z)
  | VStr s => Some (quoted s)
  | VArr l =>
      Some ("[" ++ join "," (map (fun x => match stringify x with
                                           | Some t => t
                                           | None => "null"
                                           end) l) ++ "]")
  | VObj fields =>
      let texts := map (fun kv => (fst kv, stringify (snd kv))) fields in
      Some ("{" ++ join "," (flat_map (fun kt => match snd kt with
                                                 | Some t => [quoted (fst kt) ++ ":" ++ t]
                                                 | None => []
                                                 end) (Object_entries texts)) ++ "}")
  end.

Definition JSON_stringify (v : jsval) : jsval :=
  match stringify v with
  | Some t => VStr t
  | None => VUndef
  end.

(** The source of a regular expression of [item] read back. *)
Fixpoint parse_items (fuel : nat) (s : string) : option (list item) :=
  match fuel with
  | O => None
  | S f =>
      match s with
      | EmptyString => Some []
      | String c r =>
          if Ascii.eqb c "(" then
            match strip_prefix "([^/]+)" s with
            | Some rest => option_map (cons Group) (parse_items f rest)
            | None => None
            end
          else if Ascii.eqb c "." then option_map (cons Dot) (parse_items f r)
          else if syntax_char c then None
          else option_map (cons (Lit c)) (parse_items f r)
      end
  end.

(** [s] without its last character, a dollar. *)
Fixpoint strip_dollar (s : string) : option string :=
  match s with
  | EmptyString => None
  | String c EmptyString => if Ascii.eqb c "$" then Some "" else None
  | String c r => option_map (String c) (strip_dollar r)
  end.

(** [^ source $] without its anchors. *)
Definition unanchored (source : string) : option string :=
  match source with
  | String c r => if Ascii.eqb c "^" then strip_dollar r else None
  | EmptyString => None
  end.

Definition RegExp_match (source subject : string) : completion (option (list jsval)) :=
  match unanchored source with
  | None => Throw (JsError "SyntaxError" "Invalid regular expression")
  | Some inner =>
      match parse_items (S (String.length inner)) inner with
      | None => Throw (JsError "SyntaxError" "Invalid regular expression")
      | Some items => Normal (option_map (map VStr) (rmatch items subject))
      end
  end.

Definition token_char (c : ascii) : bool :=
  is_alnum c || one_of "!#$%&'*+-.^_`|~" c.

Definition header_ok (kv : string * string) : bool :=
  truthy (fst kv) && all_chars token_char (fst kv) &&
  all_chars (fun c => let n := nat_of_ascii c in
                      negb (Nat.eqb n 0 || Nat.eqb n 10 || Nat.eqb n 13)) (snd kv).

Definition null_body_status (st : Z) : bool :=
  (st =? 204) || (st =? 205) || (st =? 304).

(** [new Response(body, { status, headers: new Headers(headers) })]: the
    names of the headers in lower case, the body as it was passed. *)
Definition Response_new (b : jsval) (st : Z) (hs : jsobj string) : completion Response :=
  if negb (forallb header_ok hs) then
    Throw (JsError "TypeError" "Invalid header")
  else if negb ((200 <=? st) && (st <=? 599)) then
    Throw (JsError "RangeError" "The status provided is outside the range [200, 599].")
  else if null_body_status st && negb (strict_eq b VUndef || strict_eq b VNull) then
    Throw (JsError "TypeError" "Response with null body status cannot have body")
  else
    Normal {| status := st;
              headers := map (fun kv => (toLowerCase (fst kv), snd kv)) hs;
              body := b |}.

#[global] Instance platform : Platform :=
  Build_Platform URL_new URLSearchParams_entries JSON_parse JSON_stringify
                 RegExp_match Response_new.

End Node.

(* ================================================================= *)
(** ** Sample registrations and requests *)

Module Sample.

Definition json : jsobj string := [("Content-Type", "application/json")].

(** [() => ({ response: [{ id: 1, name: 'John Doe' }], status: 200, headers: json })] *)
Definition users : Handler := fun _ =>
  Normal (Some {| response := VArr [VObj [("id", VNum 1); ("name", VStr "John Doe")]];
                  res_status := Some 200;
                  res_headers := Some json |}).

(** [() => ({ response: { admin: true }, status: 200, headers: json })] *)
Definition admin : Handler := fun _ =>
  Normal (Some {| response := VObj [("admin", VBool true)];
                  res_status := Some 200;
                  res_headers := Some json |}).


(** [fetch(url)] without a second argument. *)
Definition no_init : RequestInit :=
  {| init_method := None; init_headers := None; init_body := None |}.


Definition post (hs : jsobj string) (b : string) : RequestInit :=
  {| init_method := Some "POST"; init_headers := Some hs; init_body := Some b |}.

(** [fetchMocker.namespace(name)[method](path, h, options)], a registration
    that throws leaving the state as [namespace(name)] made it. *)
Definition register (st : FetchMocker) (name method path : string)
           (h : Handler) (options : RouteOptions) : FetchMocker :=
  let st1 := namespace st name in
  match addRoute st1 name method path h options with
  | Normal st2 => st2
  | Throw _ => st1
  end.

Definition started : FetchMocker := start constructor.

Definition api_users : FetchMocker :=
  register started "api" "GET" "/users" users no_options.

(** [() => ({ response: { created: true }, status: 201, headers: json })] *)
Definition created : Handler := fun _ =>
  Normal (Some {| response := VObj [("created", VBool true)];
                  res_status := Some 201;
                  res_headers := Some json |}).

(** The namespace [api], then the namespace [1], each with [GET /users]. *)
Definition api_then_1 : FetchMocker :=
  register api_users "1" "GET" "/users" created no_options.

Definition api1_users : URL :=
  {| hostname := "api1.example.com"; pathname := "/users"; searchParams := [] |}.

(** The namespace [api] with [GET /dashboard] only. *)
Definition api_dashboard : FetchMocker :=
  register started "api" "GET" "/dashboard" admin no_options.

(** Then the namespace [example] with [GET /users]. *)
Definition api_and_example : FetchMocker :=
  register api_dashboard "example" "GET" "/users" created no_options.

(** [() => { throw null }] *)
Definition throws_null : Handler := fun _ => Throw ThrownNullish.

(** The namespace [api] with [GET /users/(], whose path is not a regular
    expression. *)
Definition api_bad_pattern : FetchMocker :=
  register started "api" "GET" "/users/(" users no_options.

(** The namespace [api] with [POST /users] constrained on the body. *)
Definition api_body_constraint : FetchMocker :=
  register started "api" "POST" "/users" users
           {| opt_queryParams := None;
              opt_bodyParams := Some [("role", VStr "admin")] |}.

(** [() => new Promise(() => {})], a promise that never settles. *)
Definition hangs : Handler := fun _ => Throw NeverSettles.

(** The namespace [api] with [GET /users] answered by [hangs]. *)
Definition api_hangs : FetchMocker :=
  register started "api" "GET" "/users" hangs no_options.

(** The namespace [api] with [GET /users] answered by [throws_null]. *)
Definition api_throws_null : FetchMocker :=
  register started "api" "GET" "/users" throws_null no_options.


(** [v[k] === s] in a handler. *)
Definition field_is (v : jsval) (k s : string) : bool :=
  match js_get v k with
  | Normal x => strict_eq x (VStr s)
  | Throw _ => false
  end.

Definition answer (st : Z) : completion (option HandlerResult) :=
  Normal (Some {| response := VObj [("success", VBool (st =? 200))];
                  res_status := Some st;
                  res_headers := Some json |}).

(** The handler of the test of form data: 200 when [bodyParams.name] is
    [test] and [bodyParams.action] is [submit], 400 otherwise. *)
Definition form_handler : Handler := fun ctx =>
  if field_is (bodyParams ctx) "name" "test" && field_is (bodyParams ctx) "action" "submit"
  then answer 200 else answer 400.

(** The handler of the test of plain text: 200 when [bodyParams.text] is
    the text sent, 400 otherwise. *)
Definition text_handler : Handler := fun ctx =>
  if field_is (bodyParams ctx) "text" "Hello, World!" then answer 200 else answer 400.

(** The handler of the test with path, query and body parameters: it
    throws an Error unless all three are the expected ones. *)
Definition update_handler : Handler := fun ctx =>
  if negb (field_is (VObj (params ctx)) "id" "123") then
    Throw (JsError "Error" "Path parameter mismatch")
  else if negb (field_is (queryParams ctx) "action" "edit") then
    Throw (JsError "Error" "Query parameter mismatch")
  else if negb (field_is (bodyParams ctx) "name" "John Doe") then
    Throw (JsError "Error" "Body parameter mismatch")
  else answer 200.

(** The registrations of the tests of the repository on [api]. *)
Definition tests : FetchMocker :=
  register
    (register
       (register api_users "api" "POST" "/submit" form_handler no_options)
       "api" "POST" "/text" text_handler no_options)
    "api" "POST" "/users/:id/update" update_handler no_options.

End Sample.


(** The response of the intercepted [fetch] when no route matches. *)
Definition not_found : Response :=
  {| status := 404; headers := []; body := VStr "Not Found" |}.

(** The response of [executeHandler] when the handler fails. *)
Definition server_error : Response :=
  {| status := 500; headers := []; body := VStr "Server Error" |}.

(** ** First match, over the routes of all namespaces *)

(** A route with the name of its namespace and its key. *)
Definition Candidate : Type := (string * string * Route)%type.

Definition candidates_of (entries : list (string * RouteMap)) : list Candidate :=
  flat_map (fun e => map (fun kr => (fst e, fst kr, snd kr)) (snd e)) entries.

(** The candidates in the order [routeRequest] visits them. *)
Definition candidates (nss : jsobj RouteMap) : list Candidate :=
  candidates_of (Object_entries nss).

(** The candidates with the namespaces in insertion order, as the
    specification words it. *)
Definition candidates_insertion_order (nss : jsobj RouteMap) : list Candidate :=
  candidates_of nss.

Section Selection.
Context {P : Platform}.

(** The four conditions on one route: the hostname contains the name of the
    namespace, the path matches, the method is the one of the key, the
    query and the body constraints hold.  [Normal (Some params)] when they
    all hold, [Normal None] when one does not. *)
Definition route_test (u : URL) (method : string) (qp bp : jsval) (c : Candidate)
  : completion (option (jsobj jsval)) :=
  let '(namespace, routeKey, route) := c in
  if includes (hostname u) namespace then
    match nth_error (split " " routeKey) 1 with
    | None =>
        Throw (JsError "TypeError"
                 "Cannot read properties of undefined (reading 'replace')")
    | Some routePath =>
        match_ <- matchPath (pathname u) routePath ;;
        match (if String.eqb (nth 0 (split " " routeKey) "") method
               then match_ else None) with
        | None => Normal None
        | Some ps =>
            okq <- matchParams qp (expectedQueryParams route) ;;
            okb <- (if okq then matchParams bp (expectedBodyParams route)
                    else Normal false) ;;
            Normal (if okb then Some ps else None)
        end
    end
  else Normal None.

(** What [routeRequest] returns once a route is selected. *)
Definition selected (u : URL) (qp bp : jsval) (c : Candidate) (ps : jsobj jsval)
  : list LogEntry * completion (option Response) :=
  let '(namespace, routeKey, route) := c in
  let (l, r) := executeHandler (handler route)
                  {| queryParams := qp; bodyParams := bp; params := ps |} in
  ((LOG, "Route matched: " ++ namespace ++ "/" ++ nth 1 (split " " routeKey) "") :: l,
   match r with
   | Normal resp => Normal (Some resp)
   | Throw e => Throw e
   end).

(** The first candidate of a list that passes [route_test]. *)
Fixpoint select (u : URL) (method : string) (qp bp : jsval) (cs : list Candidate)
  : list LogEntry * completion (option Response) :=
  match cs with
  | [] => ([], Normal None)
  | c :: rest =>
      match route_test u method qp bp c with
      | Throw e => ([], Throw e)
      | Normal None => select u method qp bp rest
      | Normal (Some ps) => selected u qp bp c ps
      end
  end.

End Selection.

(** Two lists of namespaces with the same names in the same order, and the
    same routes except under the name [B]. *)
Definition same_but (B : string) (o o' : list (string * RouteMap)) : Prop :=
  Forall2 (fun e e' => fst e = fst e' /\ (fst e <> B -> snd e = snd e')) o o'.

Definition same_indexed (B : string) (l l' : list (N * (string * RouteMap))) : Prop :=
  Forall2 (fun x x' => fst x = fst x' /\ fst (snd x) = fst (snd x') /\
                       (fst (snd x) <> B -> snd (snd x) = snd (snd x'))) l l'.

(** ** The answer made of a handler's outcome *)

Section HandlerResults.
Context {P : Platform}.





End HandlerResults.

(** ** Path patterns by segments *)

(** A segment of a route path: a literal one, or a parameter [:name]. *)
Inductive segment : Type :=
| Literal (s : string)
| Param (name : string).

Definition segment_text (g : segment) : string :=
  match g with
  | Literal s => s
  | Param name => String ":" name
  end.

(** The route path made of the segments: their texts joined by slashes. *)
Definition pattern_of (segs : list segment) : string :=
  join "/" (map segment_text segs).

Definition not_slash (c : ascii) : bool := negb (Ascii.eqb c "/").

(** A literal segment without a slash, a colon, or a character of the
    syntax of regular expressions. *)
Definition literal_ok (s : string) : bool :=
  all_chars (fun c => negb (syntax_char c) && not_slash c && negb (Ascii.eqb c ":")) s.

(** A parameter name: not empty and without a slash. *)
Definition param_ok (name : string) : bool :=
  truthy name && all_chars not_slash name.

Definition segment_ok (g : segment) : bool :=
  match g with
  | Literal s => literal_ok s
  | Param name => param_ok name
  end.

(** Segment-wise matching, as the specification words it: the same number
    of segments, equal literal segments, and each parameter bound to the
    segment at its place, which is not empty.  The result is the list of
    the bindings in the order of the pattern. *)
Fixpoint match_segments (segs : list segment) (path : list string)
  : option (list (string * string)) :=
  match segs, path with
  | [], [] => Some []
  | Literal s :: r, x :: p => if String.eqb s x then match_segments r p else None
  | Param name :: r, x :: p =>
      if truthy x then option_map (cons (name, x)) (match_segments r p) else None
  | _, _ => None
  end.

(** The object of the bindings, made by assignments: a later binding of a
    name replaces an earlier one, and the name [__proto__] is bound to
    nothing. *)
Definition bind_params (bs : list (string * string)) : jsobj jsval :=
  fold_left (fun acc nb => obj_assign acc (fst nb) (VStr (snd nb))) bs [].

Fixpoint lits (s : string) : list item :=
  match s with
  | EmptyString => []
  | String c r => Lit c :: lits r
  end.

Definition segment_items (g : segment) : list item :=
  match g with
  | Literal s => lits s
  | Param _ => [Group]
  end.

(** The regular expression of a pattern. *)
Fixpoint items_of (segs : list segment) : list item :=
  match segs with
  | [] => []
  | [g] => segment_items g
  | g :: r => (segment_items g ++ Lit "/" :: items_of r)%list
  end.

Definition names_of (segs : list segment) : list string :=
  flat_map (fun g => match g with Param name => [name] | Literal _ => [] end) segs.

(** The segments after the first, from what [break] leaves. *)
Definition tail_of (rest : string) : list string :=
  match rest with
  | EmptyString => []
  | String _ p => split "/" p
  end.

(** The last value bound to [name] in a list of bindings. *)
Fixpoint last_binding (name : string) (bs : list (string * string)) : option string :=
  match bs with
  | [] => None
  | (k, v) :: r =>
      match last_binding name r with
      | Some x => Some x
      | None => if String.eqb k name then Some v else None
      end
  end.

(** ** Further notions for the properties of the code *)

(** The running flag says whether the intercepted fetch is installed. *)
Definition consistent (st : FetchMocker) : Prop :=
  isServerRunning st = true <-> global_fetch st = MockFetch.

(** The record pushed on [calls] by an intercepted call. *)
Definition call_of (input : FetchInput) (init : RequestInit) : Call :=
  {| call_url := input_url input; call_method := request_method init;
     call_options := init |}.

(** A string without a space, as the four methods of a namespace object. *)
Definition space_free (s : string) : bool :=
  all_chars (fun c => negb (Ascii.eqb c " ")) s.

(** The route stored by a registration. *)
Definition route_of (h : Handler) (o : RouteOptions) : Route :=
  {| handler := h; expectedQueryParams := opt_queryParams o;
     expectedBodyParams := opt_bodyParams o |}.

(** A route path without a colon and without a character of the syntax of
    regular expressions; it may have slashes. *)
Definition plain_path (s : string) : bool :=
  all_chars (fun c => negb (syntax_char c) && negb (Ascii.eqb c ":")) s.

(** A parameter name as [replace] reads it: not empty, without a slash. *)
Definition key_ok (name : string) : Prop :=
  truthy name = true /\ all_chars not_slash name = true.

(** The test [matchParams] makes of one constraint. *)
Definition constraint_holds (observed : jsval) (kv : string * jsval) : bool :=
  match js_get observed (fst kv) with
  | Normal x => strict_eq x (snd kv)
  | Throw _ => false
  end.

(** The values no query parameter is strictly equal to: the query
    parameters are strings. *)
Definition not_a_string (v : jsval) : bool :=
  match v with
  | VNull | VBool _ | VNum _ | VArr _ | VObj _ => true
  | VUndef | VStr _ | VBuiltin _ => false
  end.

(** Arrays and objects, which are strictly equal to nothing decoded. *)
Definition structured (v : jsval) : bool :=
  match v with
  | VArr _ | VObj _ => true
  | _ => false
  end.

(** Upper-case ASCII letters, and strings without any. *)
Definition is_upper (c : ascii) : bool :=
  let n := nat_of_ascii c in andb (Nat.leb 65 n) (Nat.leb n 90).

Definition no_upper (s : string) : bool := all_chars (fun c => negb (is_upper c)) s.

(** [() => ({ response: 'x', status: 999 })], a status [new Response]
    rejects. *)
Definition status_999 : Handler := fun _ =>
  Normal (Some {| response := VStr "x"; res_status := Some 999; res_headers := None |}).

(** [fetch(url, { method: 'DELETE', headers, body })] *)
Definition delete_with (hs : jsobj string) (b : string) : RequestInit :=
  {| init_method := Some "DELETE"; init_headers := Some hs; init_body := Some b |}.

(** The route [r] is the one registered under [key] in the namespace [ns]. *)
Definition registered (st : FetchMocker) (ns key : string) (r : Route) : Prop :=
  exists routes, own_get (namespaces st) ns = Some routes /\ own_get routes key = Some r.





(* ================================================================= *)
(** * Properties *)

(** ** Strings *)

Lemma strip_prefix_app (p s : string) : strip_prefix p (p ++ s) = Some s.
Proof.
  induction p as [|a p IH]; simpl.
  - destruct s; reflexivity.
  - rewrite Ascii.eqb_refl. exact IH.
Qed.

(** ** The reference platform satisfies the laws *)

Module NodeFacts.
Import Node.

Lemma strip_dollar_app (s : string) : strip_dollar (s ++ "$") = Some s.
Proof.
  induction s as [|c s IH]; [reflexivity|].
  change (strip_dollar (String c (s ++ "$")) = Some (String c s)).
  simpl. rewrite IH.
  destruct (s ++ "$") eqn:E; [destruct s; discriminate | reflexivity].
Qed.

Lemma length_append (a b : string) :
  String.length (a ++ b) = (String.length a + String.length b)%nat.
Proof. induction a; simpl; congruence. Qed.

Lemma plain_not (c d : ascii) :
  syntax_char c = false -> syntax_char d = true -> Ascii.eqb c d = false.
Proof.
  intros Hc Hd. destruct (Ascii.eqb_spec c d) as [->|]; congruence.
Qed.

Lemma parse_items_render (items : list item) :
  forallb plain_item items = true ->
  forall fuel, (String.length (render items) < fuel)%nat ->
  parse_items fuel (render items) = Some items.
Proof.
  induction items as [|i items IH]; intros Hp fuel Hf.
  - destruct fuel; [lia | reflexivity].
  - simpl in Hp. apply andb_true_iff in Hp as [Hi Hp].
    destruct fuel as [|f]; [lia|].
    destruct i as [c| |].
    + simpl in Hi. apply negb_true_iff in Hi.
      simpl in Hf. simpl.
      rewrite (plain_not c "(" Hi eq_refl), (plain_not c "." Hi eq_refl), Hi.
      rewrite IH by (assumption || lia). reflexivity.
    + simpl in Hf. simpl. rewrite IH by (assumption || lia). reflexivity.
    + change (render (Group :: items)) with ("([^/]+)" ++ render items) in *.
      rewrite length_append in Hf. simpl in Hf.
      change (parse_items (S f) ("([^/]+)" ++ render items))
        with (match strip_prefix "([^/]+)" ("([^/]+)" ++ render items) with
              | Some rest => option_map (cons Group) (parse_items f rest)
              | None => None
              end).
      rewrite strip_prefix_app, IH by (assumption || lia). reflexivity.
Qed.

#[global] Instance laws : PlatformLaws Node.platform.
Proof.
  split.
  - intros text st [-> | ->]; reflexivity.
  - intros b st hs e.
    change (Node.Response_new b st hs = Throw e ->
            exists name message, e = JsError name message).
    unfold Node.Response_new.
    repeat match goal with |- context [if ?c then _ else _] => destruct c end;
      intros H; inversion H; eauto.
  - intros items subject Hp.
    change (Node.RegExp_match (String "^" (render items ++ "$")) subject =
            Normal (option_map (map VStr) (rmatch items subject))).
    unfold Node.RegExp_match, Node.unanchored. rewrite Ascii.eqb_refl.
    rewrite strip_dollar_app, parse_items_render by (assumption || lia).
    reflexivity.
Qed.

End NodeFacts.

(* ================================================================= *)
(** ** Objects *)

Lemma own_get_obj_set_eq {A} (o : jsobj A) (k : string) (v : A) :
  own_get (obj_set o k v) k = Some v.
Proof.
  induction o as [|[k' v'] o IH]; simpl.
  - now rewrite String.eqb_refl.
  - destruct (String.eqb k' k) eqn:E; simpl; rewrite E; auto.
Qed.

Lemma own_get_obj_set_neq {A} (o : jsobj A) (k k' : string) (v : A) :
  k <> k' -> own_get (obj_set o k v) k' = own_get o k'.
Proof.
  intros Hne. induction o as [|[k0 v0] o IH]; simpl.
  - destruct (String.eqb_spec k k'); congruence.
  - destruct (String.eqb_spec k0 k) as [->|]; simpl.
    + destruct (String.eqb_spec k k'); congruence.
    + destruct (String.eqb k0 k'); auto.
Qed.

Lemma namespaces_get_own (nss : jsobj RouteMap) (name : string) (routes : RouteMap) :
  own_get nss name = Some routes -> namespaces_get nss name = Own routes.
Proof. unfold namespaces_get. now intros ->. Qed.

(* ================================================================= *)
(** ** Route registry *)

Section Registry.

(** A registration under a key the namespace already has only warns. *)
Lemma addRoute_existing (st : FetchMocker) (ns method path : string) (h : Handler)
      (o : RouteOptions) (routes : RouteMap) :
  own_get (namespaces st) ns = Some routes ->
  Map_has routes (method ++ " " ++ path) = true ->
  addRoute st ns method path h o =
  Normal (logged st [(WARN, "Route already exists for " ++ method ++ " " ++ path
                             ++ " in namespace " ++ ns ++ ".")]).
Proof.
  intros Hns Hhas. unfold addRoute.
  rewrite (namespaces_get_own _ _ Hns), Hhas. reflexivity.
Qed.

(** A registration that returns leaves its key registered. *)
Lemma addRoute_registered (st st1 : FetchMocker) (ns method path : string)
      (h : Handler) (o : RouteOptions) :
  addRoute st ns method path h o = Normal st1 ->
  exists routes, own_get (namespaces st1) ns = Some routes /\
                 Map_has routes (method ++ " " ++ path) = true.
Proof.
  unfold addRoute, namespaces_get.
  destruct (own_get (namespaces st) ns) as [routes|] eqn:Hns.
  - destruct (Map_has routes (method ++ " " ++ path)) eqn:Hhas; intros [= <-]; simpl.
    + eauto.
    + rewrite own_get_obj_set_eq. eexists; split; [reflexivity|].
      unfold Map_has, Map_set. now rewrite own_get_obj_set_eq.
  - destruct (inherited ns); discriminate.
Qed.

(** A registration that returns keeps every route registered before it. *)
Lemma addRoute_keeps (st st1 : FetchMocker) (ns key : string) (r : Route)
      (ns' method' path' : string) (h : Handler) (o : RouteOptions) :
  registered st ns key r ->
  addRoute st ns' method' path' h o = Normal st1 ->
  registered st1 ns key r.
Proof.
  intros (routes & Hns & Hr). unfold addRoute, namespaces_get.
  destruct (own_get (namespaces st) ns') as [routes'|] eqn:Hns'.
  - destruct (Map_has routes' (method' ++ " " ++ path')) eqn:Hhas; intros [= <-].
    + exists routes. now split.
    + unfold registered. cbn [namespaces].
      destruct (String.eqb_spec ns' ns) as [->|Hne].
      * rewrite own_get_obj_set_eq. eexists. split; [reflexivity|].
        assert (routes' = routes) by congruence. subst routes'.
        unfold Map_set. rewrite own_get_obj_set_neq; [exact Hr|].
        intros E.
        assert (Hh : Map_has routes key = true) by (unfold Map_has; now rewrite Hr).
        rewrite <- E in Hh. cbn [append] in Hh, Hhas. congruence.
      * rewrite own_get_obj_set_neq by exact Hne. exists routes. now split.
  - destruct (inherited ns'); discriminate.
Qed.

(** A call of [namespace] keeps every route registered before it. *)
Lemma namespace_keeps (st : FetchMocker) (ns key : string) (r : Route) (name : string) :
  registered st ns key r -> registered (namespace st name) ns key r.
Proof.
  intros (routes & Hns & Hr). unfold namespace, namespaces_get.
  destruct (own_get (namespaces st) name) eqn:Hn; [now exists routes|].
  destruct (inherited name); [now exists routes|].
  unfold registered. cbn [namespaces].
  rewrite own_get_obj_set_neq by (intros ->; congruence).
  now exists routes.
Qed.

(** C6. Registering a (method, path) pair that is already registered in
    the namespace, whenever and in whatever order it was registered, is
    rejected: the call returns, a warning is logged and nothing else
    changes; the namespaces, hence the route collection of the namespace
    and the route registered first with its handler, are as they were.  A
    pair is registered by the registration that adds it, with the handler
    given then, and stays so through every later registration and every
    later call of [namespace]. *)
Theorem duplicate_route_rejected
        (st : FetchMocker) (ns method path : string) (r0 : Route)
        (h2 : Handler) (o2 : RouteOptions) :
  registered st ns (method ++ " " ++ path) r0 ->
  (exists st2,
    addRoute st ns method path h2 o2 = Normal st2 /\
    console st2 =
      app (console st)
          [(WARN, "Route already exists for " ++ method ++ " " ++ path
                   ++ " in namespace " ++ ns ++ ".")] /\
    namespaces st2 = namespaces st /\
    calls st2 = calls st /\
    isServerRunning st2 = isServerRunning st /\
    global_fetch st2 = global_fetch st /\
    registered st2 ns (method ++ " " ++ path) r0) /\
  (forall st0 routes0 h1 o1 st1,
      own_get (namespaces st0) ns = Some routes0 ->
      Map_has routes0 (method ++ " " ++ path) = false ->
      addRoute st0 ns method path h1 o1 = Normal st1 ->
      registered st1 ns (method ++ " " ++ path)
                 {| handler := h1;
                    expectedQueryParams := opt_queryParams o1;
                    expectedBodyParams := opt_bodyParams o1 |}) /\
  (forall ns' method' path' h o st1,
      addRoute st ns' method' path' h o = Normal st1 ->
      registered st1 ns (method ++ " " ++ path) r0) /\
  (forall name, registered (namespace st name) ns (method ++ " " ++ path) r0).
Proof.
  intros Hreg. split; [|split; [|split]].
  - destruct Hreg as (routes & Hns & Hr).
    assert (Hhas : Map_has routes (method ++ " " ++ path) = true)
      by (unfold Map_has; now rewrite Hr).
    eexists. split; [apply (addRoute_existing _ _ _ _ _ _ Hns Hhas)|].
    simpl. repeat split; trivial. exists routes. now split.
  - intros st0 routes0 h1 o1 st1 Hns0 Hno H1. unfold addRoute in H1.
    rewrite (namespaces_get_own _ _ Hns0) in H1. simpl in H1, Hno.
    rewrite Hno in H1. injection H1 as <-. unfold registered. simpl.
    rewrite own_get_obj_set_eq. eexists. split; [reflexivity|].
    unfold Map_set. now rewrite own_get_obj_set_eq.
  - intros ns' method' path' h o st1. now apply addRoute_keeps.
  - intros name. now apply namespace_keeps.
Qed.

End Registry.

(** [GET /users], then [POST /users], then [GET /users] again: the third
    registration is rejected. *)
Lemma duplicate_route_rejected_witness :
  exists st2,
    addRoute (Sample.register Sample.api_users "api" "POST" "/users"
                              Sample.created no_options)
             "api" "GET" "/users" Sample.admin no_options = Normal st2 /\
    namespaces st2 =
    namespaces (Sample.register Sample.api_users "api" "POST" "/users"
                                Sample.created no_options) /\
    registered st2 "api" "GET /users"
               {| handler := Sample.users;
                  expectedQueryParams := None;
                  expectedBodyParams := None |}.
Proof.
  destruct (@duplicate_route_rejected
              (Sample.register Sample.api_users "api" "POST" "/users"
                               Sample.created no_options)
              "api" "GET" "/users"
              {| handler := Sample.users;
                 expectedQueryParams := None;
                 expectedBodyParams := None |}
              Sample.admin no_options)
    as ((st2 & H & _ & Hn & _ & _ & _ & Hr) & _).
  - eexists. split; reflexivity.
  - exists st2. repeat split; assumption.
Defined.

(* ================================================================= *)
(** ** Request decoder *)

Lemma truthy_toLowerCase (s : string) : truthy (toLowerCase s) = truthy s.
Proof. destruct s; reflexivity. Qed.


Section Decoder.
Context {P : Platform}.

(** The content type the code reads: the value under the key [Content-Type],
    or, when that one is absent or empty, under the key [content-type], in
    lower case. *)
Lemma contentType_of_keys (init : RequestInit) (hs : jsobj string) (v : string) :
  init_headers init = Some hs ->
  (own_get hs "Content-Type" = Some v /\ truthy v = true) \/
  ((own_get hs "Content-Type" = None \/ own_get hs "Content-Type" = Some "") /\
   own_get hs "content-type" = Some v) ->
  contentType_of init = Some (toLowerCase v).
Proof.
  intros Hh Hv. unfold contentType_of. rewrite Hh.
  destruct Hv as [[-> Htv] | [[-> | ->] ->]]; simpl; trivial.
  now rewrite truthy_toLowerCase, Htv.
Qed.

(** No content type is read when neither key has a non-empty value. *)
Lemma contentType_of_no_key (init : RequestInit) (hs : jsobj string) :
  init_headers init = Some hs ->
  own_get hs "Content-Type" = None \/ own_get hs "Content-Type" = Some "" ->
  own_get hs "content-type" = None \/ own_get hs "content-type" = Some "" ->
  contentType_of init = None \/ contentType_of init = Some "".
Proof.
  intros Hh H1 H2. unfold contentType_of. rewrite Hh.
  destruct H1 as [-> | ->], H2 as [-> | ->]; simpl; auto.
Qed.


(** C5, as the code has it.  For a POST or PUT call with a non-empty body
    the content type is the value of the header named exactly
    [Content-Type], or, when that one is absent or empty, of the header
    named exactly [content-type]; the value is compared in lower case, and
    selects the JSON, the form or the text decoding, in this order.  When
    neither of the two keys has a non-empty value, whatever other keys the
    headers have, and when the call has no headers, the body parameters are
    the empty object and nothing is logged. *)
Theorem body_decoded_by_content_type
        (method : string) (init : RequestInit) (b : string) :
  method = "POST" \/ method = "PUT" ->
  init_body init = Some b -> truthy b = true ->
  (forall hs v,
      init_headers init = Some hs ->
      (own_get hs "Content-Type" = Some v /\ truthy v = true) \/
      ((own_get hs "Content-Type" = None \/ own_get hs "Content-Type" = Some "") /\
       own_get hs "content-type" = Some v) ->
      snd (decodeBody method init) =
      (let ct := toLowerCase v in
       if includes ct "application/json" then
         match JSON_parse b with inl x => x | inr _ => VObj [] end
       else if includes ct "application/x-www-form-urlencoded" then
         string_object (Object_fromEntries (URLSearchParams_entries b))
       else if includes ct "text/plain" then VObj [("text", VStr b)]
       else VObj [])) /\
  (forall hs,
      init_headers init = Some hs ->
      own_get hs "Content-Type" = None \/ own_get hs "Content-Type" = Some "" ->
      own_get hs "content-type" = None \/ own_get hs "content-type" = Some "" ->
      decodeBody method init = ([], VObj [])) /\
  (init_headers init = None -> decodeBody method init = ([], VObj [])).
Proof.
  intros Hm Hb Ht.
  assert (Hpp : String.eqb method "POST" || String.eqb method "PUT" = true)
    by (destruct Hm as [-> | ->]; reflexivity).
  split; [|split].
  - intros hs v Hh Hv.
    pose proof (contentType_of_keys init Hh Hv) as Hct.
    unfold decodeBody. rewrite Hb, Ht, Hct, Hpp.
    cbv zeta. simpl andb. cbv iota.
    destruct (truthy (toLowerCase v)) eqn:Htl; simpl negb; cbv iota.
    + destruct (includes (toLowerCase v) "application/json").
      * destruct (JSON_parse b); reflexivity.
      * destruct (includes (toLowerCase v) "application/x-www-form-urlencoded");
          [reflexivity|].
        destruct (includes (toLowerCase v) "text/plain"); reflexivity.
    + destruct (toLowerCase v); [reflexivity | discriminate].
  - intros hs Hh H1 H2. unfold decodeBody. rewrite Hb, Ht, Hpp.
    destruct (contentType_of_no_key init Hh H1 H2) as [-> | ->]; reflexivity.
  - intros Hh. unfold decodeBody, contentType_of. rewrite Hb, Ht, Hpp, Hh.
    reflexivity.
Qed.

End Decoder.



Lemma body_decoded_by_content_type_witness :
  snd (decodeBody "POST" (Sample.post [("content-type", "Text/Plain")] "hi")) =
  VObj [("text", VStr "hi")] /\
  decodeBody "POST" (Sample.post [("CONTENT-TYPE", "text/plain")] "hi") = ([], VObj []).
Proof.
  destruct (@body_decoded_by_content_type Node.platform "POST"
              (Sample.post [("content-type", "Text/Plain")] "hi") "hi"
              (or_introl eq_refl) eq_refl eq_refl) as (Hread & _ & _).
  destruct (@body_decoded_by_content_type Node.platform "POST"
              (Sample.post [("CONTENT-TYPE", "text/plain")] "hi") "hi"
              (or_introl eq_refl) eq_refl eq_refl) as (_ & Hnot & _).
  split.
  - apply (Hread [("content-type", "Text/Plain")] "Text/Plain" eq_refl
                 (or_intror (conj (or_introl eq_refl) eq_refl))).
  - apply (Hnot [("CONTENT-TYPE", "text/plain")] eq_refl
                (or_introl eq_refl) (or_introl eq_refl)).
Defined.

(** C5 as stated fails: a header key in another casing is not read. *)
Lemma content_type_key_casing_counterexample :
  toLowerCase "CONTENT-TYPE" = "content-type" /\
  snd (decodeBody "POST" (Sample.post [("CONTENT-TYPE", "text/plain")] "hi")) = VObj [] /\
  snd (decodeBody "POST" (Sample.post [("CONTENT-TYPE", "text/plain")] "hi"))
    <> VObj [("text", VStr "hi")].
Proof. repeat split. discriminate. Qed.

(* ================================================================= *)
(** ** The intercepted fetch and the lifecycle *)

Lemma upper_char_idem (c : ascii) : upper_char (upper_char c) = upper_char c.
Proof. destruct c as [[] [] [] [] [] [] [] []]; reflexivity. Qed.

Lemma toUpperCase_idem (s : string) : toUpperCase (toUpperCase s) = toUpperCase s.
Proof.
  induction s as [|c s IH]; [reflexivity|].
  unfold toUpperCase in *. simpl. now rewrite upper_char_idem, IH.
Qed.



Section Interception.
Context {P : Platform}.



(** What the caller of the intercepted fetch gets, from the namespaces
    alone. *)
Lemma mockFetch_result (st : FetchMocker) (input : FetchInput) (init : RequestInit) :
  snd (mockFetch st input init) =
  match snd (routeRequest (namespaces st) (input_url input) (request_method init) init) with
  | Throw e => Throw e
  | Normal (Some resp) => Normal resp
  | Normal None => Response_new (VStr "Not Found") 404 []
  end.
Proof.
  unfold mockFetch. simpl namespaces.
  destruct (routeRequest _ _ _ _) as [l [[resp|]|e]]; reflexivity.
Qed.

Lemma routeRequest_no_namespace (url method : string) (init : RequestInit) (u : URL) :
  URL_new url = Normal u ->
  snd (routeRequest [] url method init) = Normal None.
Proof.
  intros Hu. unfold routeRequest. rewrite Hu.
  destruct (decodeBody method init). reflexivity.
Qed.

Lemma mockFetch_returns_url (st : FetchMocker) (input : FetchInput) (init : RequestInit)
      (r : Response) :
  snd (mockFetch st input init) = Normal r ->
  exists u, URL_new (input_url input) = Normal u.
Proof.
  rewrite mockFetch_result. unfold routeRequest.
  destruct (URL_new (input_url input)) as [u|e]; [eauto | discriminate].
Qed.


(** Registering never touches the lifecycle fields. *)
Lemma addRoute_frame (st st' : FetchMocker) (ns method path : string) (h : Handler)
      (o : RouteOptions) :
  addRoute st ns method path h o = Normal st' ->
  calls st' = calls st /\ isServerRunning st' = isServerRunning st /\
  global_fetch st' = global_fetch st.
Proof.
  unfold addRoute. destruct (namespaces_get _ _); try discriminate.
  destruct (Map_has _ _); intros [= <-]; auto.
Qed.

Lemma start_namespaces (st : FetchMocker) : namespaces (start st) = namespaces st.
Proof. unfold start. destruct (isServerRunning st); reflexivity. Qed.

Lemma start_calls (st : FetchMocker) : calls (start st) = calls st.
Proof. unfold start. destruct (isServerRunning st); reflexivity. Qed.

Lemma start_installs (st : FetchMocker) :
  isServerRunning st = false ->
  global_fetch (start st) = MockFetch /\ isServerRunning (start st) = true.
Proof. unfold start. intros ->. split; reflexivity. Qed.

Lemma fetch_mocked (st : FetchMocker) (input : FetchInput) (init : RequestInit) :
  global_fetch st = MockFetch ->
  snd (fetch st input init) = Intercepted (snd (mockFetch st input init)).
Proof.
  unfold fetch. intros ->. destruct (mockFetch st input init). reflexivity.
Qed.

(** C10, as the code has it.  [start()] leaves the namespaces and the call
    log as they are.  For a name that is not a member of
    [Object.prototype], [namespace(name)] followed by a registration
    returns in every state, whatever the running flag and the installed
    function, and leaves both as they were; the route is in the namespace
    after a later [start()], which, from the stopped state, installs the
    intercepted fetch that resolves requests against these namespaces. *)
Theorem registration_in_every_state
        (st : FetchMocker) (name method path : string) (h : Handler) (o : RouteOptions) :
  inherited name = false ->
  namespaces (start st) = namespaces st /\
  calls (start st) = calls st /\
  exists st2,
    addRoute (namespace st name) name method path h o = Normal st2 /\
    isServerRunning st2 = isServerRunning st /\
    global_fetch st2 = global_fetch st /\
    namespaces (start st2) = namespaces st2 /\
    (exists routes, own_get (namespaces (start st2)) name = Some routes /\
                    Map_has routes (method ++ " " ++ path) = true) /\
    (isServerRunning st = false ->
     forall input init,
       snd (fetch (start st2) input init) =
       Intercepted
         match snd (routeRequest (namespaces st2) (input_url input)
                      (request_method init) init) with
         | Throw e => Throw e
         | Normal (Some resp) => Normal resp
         | Normal None => Response_new (VStr "Not Found") 404 []
         end).
Proof.
  intros Hname.
  split; [apply start_namespaces|]. split; [apply start_calls|].
  assert (Hown : exists routes, own_get (namespaces (namespace st name)) name = Some routes).
  { unfold namespace, namespaces_get.
    destruct (own_get (namespaces st) name) as [routes|] eqn:E.
    - rewrite E. eauto.
    - rewrite Hname. simpl. rewrite own_get_obj_set_eq. eauto. }
  assert (Hfr : isServerRunning (namespace st name) = isServerRunning st /\
                global_fetch (namespace st name) = global_fetch st).
  { unfold namespace. destruct (namespaces_get _ _); auto. }
  destruct Hown as [routes Hown], Hfr as [Hrun Hgf].
  assert (Hadd : exists st2, addRoute (namespace st name) name method path h o = Normal st2).
  { unfold addRoute. rewrite (namespaces_get_own _ _ Hown).
    destruct (Map_has _ _); eauto. }
  destruct Hadd as [st2 Hadd]. exists st2.
  destruct (addRoute_frame _ _ _ _ _ _ Hadd) as (_ & Hrun2 & Hgf2).
  split; [exact Hadd|]. split; [congruence|]. split; [congruence|].
  split; [apply start_namespaces|]. split.
  - rewrite start_namespaces. eapply addRoute_registered; eauto.
  - intros Hstopped input init.
    assert (Hs2 : isServerRunning st2 = false) by congruence.
    rewrite (fetch_mocked _ _ _ (proj1 (start_installs _ Hs2))).
    now rewrite mockFetch_result, start_namespaces.
Qed.

End Interception.


Lemma registration_in_every_state_witness :
  namespaces (start constructor) = namespaces constructor /\
  exists r,
    snd (fetch (start (Sample.register constructor "api" "GET" "/users"
                         Sample.users no_options))
           (InputString "https://api.com/users") Sample.no_init)
    = Intercepted (Normal r) /\ status r = 200.
Proof.
  split.
  - exact (proj1 (@registration_in_every_state Node.platform constructor
                    "api" "GET" "/users" Sample.users no_options eq_refl)).
  - eexists. split; reflexivity.
Defined.

(** C10 as stated fails: a registration in the namespace named
    [constructor] throws, in every lifecycle state; so does a registration
    through the object [namespace('api')] returned before a [stop()]. *)
Lemma registration_counterexample :
  namespace constructor "constructor" = constructor /\
  ns_get "constructor" (namespace constructor "constructor") "/users"
         Sample.users no_options =
  Throw (JsError "TypeError" "this.namespaces[namespace].has is not a function") /\
  ns_get "constructor" (namespace (start constructor) "constructor") "/users"
         Sample.users no_options =
  Throw (JsError "TypeError" "this.namespaces[namespace].has is not a function") /\
  ns_get "api" (stop (namespace Sample.started "api")) "/users"
         Sample.users no_options =
  Throw (JsError "TypeError" "Cannot read properties of undefined (reading 'has')").
Proof. repeat split. Qed.

Section Reset.
Context {P : Platform} {L : PlatformLaws P}.

Lemma reset_not_found (input : FetchInput) (init : RequestInit) (u : URL) (st : FetchMocker) :
  URL_new (input_url input) = Normal u ->
  namespaces st = [] ->
  snd (mockFetch st input init) = Normal not_found.
Proof.
  intros Hu Hns. rewrite mockFetch_result, Hns.
  rewrite routeRequest_no_namespace with (u := u) by exact Hu.
  apply Response_new_plain. now left.
Qed.

(** C2, as the code has it.  [reset()] and [stop()] remove every namespace
    and put the original fetch back, so that a later call of the global
    fetch is not resolved by the mocker at all.  A request that the
    intercepted fetch answered before gets the 404 response from it
    afterwards, when it is called on the reset state and when it is
    installed again by [start()] or [restart()]. *)
Theorem reset_forgets_routes
        (st : FetchMocker) (input : FetchInput) (init : RequestInit) (r : Response) :
  snd (mockFetch st input init) = Normal r ->
  namespaces (reset st) = [] /\ namespaces (stop st) = [] /\
  snd (fetch (reset st) input init) = Delegated /\
  snd (fetch (stop st) input init) = Delegated /\
  snd (mockFetch (reset st) input init) = Normal not_found /\
  snd (mockFetch (stop st) input init) = Normal not_found /\
  snd (fetch (start (reset st)) input init) = Intercepted (Normal not_found) /\
  snd (fetch (start (stop st)) input init) = Intercepted (Normal not_found) /\
  snd (fetch (restart st) input init) = Intercepted (Normal not_found).
Proof.
  intros Hr. destruct (mockFetch_returns_url _ _ _ Hr) as [u Hu].
  repeat split; try reflexivity;
    try (eapply reset_not_found; [exact Hu | reflexivity]);
    (rewrite fetch_mocked by reflexivity; f_equal;
     eapply reset_not_found; [exact Hu | reflexivity]).
Qed.

End Reset.

Lemma reset_forgets_routes_witness :
  snd (fetch (restart Sample.api_users) (InputString "https://api.com/users")
         Sample.no_init) = Intercepted (Normal not_found).
Proof.
  refine (proj2 (proj2 (proj2 (proj2 (proj2 (proj2 (proj2 (proj2
    (@reset_forgets_routes Node.platform NodeFacts.laws Sample.api_users
       (InputString "https://api.com/users") Sample.no_init _ eq_refl))))))))).
Defined.

(** C2 as stated fails: after [reset()] the same request is handed to the
    original fetch; no 404 response is made for it. *)
Lemma reset_counterexample :
  (exists r, snd (fetch Sample.api_users (InputString "https://api.com/users")
                    Sample.no_init) = Intercepted (Normal r) /\ status r = 200) /\
  snd (fetch (reset Sample.api_users) (InputString "https://api.com/users")
         Sample.no_init) = Delegated /\
  snd (fetch (stop Sample.api_users) (InputString "https://api.com/users")
         Sample.no_init) = Delegated.
Proof.
  split; [eexists; split; reflexivity | split; reflexivity].
Qed.

(* ================================================================= *)
(** ** Dispatcher *)

Section Dispatch.
Context {P : Platform}.

Lemma nth_nth_error (l : list string) (n : nat) (x : string) :
  nth_error l n = Some x -> nth n l "" = x.
Proof. intros H. now apply nth_error_nth. Qed.

(** The inner loop is the first-match scan of the routes of the
    namespace. *)
Lemma scanRoutes_select (ns : string) (u : URL) (method : string) (qp bp : jsval)
      (routes : RouteMap) :
  includes (hostname u) ns = true ->
  scanRoutes ns u method qp bp routes =
  select u method qp bp (map (fun kr => (ns, fst kr, snd kr)) routes).
Proof.
  intros Hin. induction routes as [|[key route] routes IH]; [reflexivity|].
  cbn [scanRoutes select route_test selected map fst snd]. rewrite Hin.
  destruct (nth_error (split " " key) 1) as [routePath|] eqn:Hpath; [|reflexivity].
  destruct (matchPath (pathname u) routePath) as [m|e]; [|reflexivity].
  cbn [bind].
  destruct (if String.eqb (nth 0 (split " " key) "") method then m else None)
    as [ps|]; [|exact IH].
  destruct (matchParams qp (expectedQueryParams route)) as [[|]|e]; cbn [bind];
    [| exact IH | reflexivity].
  destruct (matchParams bp (expectedBodyParams route)) as [[|]|e]; cbn [bind];
    [| exact IH | reflexivity].
  rewrite (nth_nth_error _ _ Hpath). reflexivity.
Qed.

Lemma select_rejected (u : URL) (method : string) (qp bp : jsval) (cs : list Candidate) :
  Forall (fun c => route_test u method qp bp c = Normal None) cs ->
  select u method qp bp cs = ([], Normal None).
Proof.
  induction 1 as [|c cs Hc _ IH]; [reflexivity|]. simpl. now rewrite Hc.
Qed.

Lemma select_app (u : URL) (method : string) (qp bp : jsval) (before rest : list Candidate) :
  Forall (fun c => route_test u method qp bp c = Normal None) before ->
  select u method qp bp (before ++ rest)%list = select u method qp bp rest.
Proof.
  induction 1 as [|c cs Hc _ IH]; [reflexivity|]. simpl. now rewrite Hc.
Qed.

Lemma route_test_outside (u : URL) (method : string) (qp bp : jsval) (ns : string)
      (routes : RouteMap) :
  includes (hostname u) ns = false ->
  Forall (fun c => route_test u method qp bp c = Normal None)
         (map (fun kr => (ns, fst kr, snd kr)) routes).
Proof.
  intros Hout. apply Forall_forall. intros c Hc.
  apply in_map_iff in Hc as ([key route] & <- & _). simpl. now rewrite Hout.
Qed.

(** A selection never ends on [Normal None]. *)
Lemma selected_not_none (u : URL) (qp bp : jsval) (c : Candidate) (ps : jsobj jsval)
      (l : list LogEntry) :
  selected u qp bp c ps <> (l, Normal None).
Proof.
  destruct c as [[ns key] route]. unfold selected.
  destruct (executeHandler _ _) as [l' [resp|e]]; intros [=].
Qed.

(** The two loops of [routeRequest] are the first-match scan of the
    candidates. *)
Lemma scanNamespaces_select (u : URL) (method : string) (qp bp : jsval)
      (entries : list (string * RouteMap)) :
  scanNamespaces u method qp bp entries =
  select u method qp bp (candidates_of entries).
Proof.
  induction entries as [|[ns routes] entries IH]; [reflexivity|].
  unfold candidates_of in *.
  cbn [scanNamespaces flat_map fst snd].
  destruct (includes (hostname u) ns) eqn:Hin.
  - rewrite scanRoutes_select by exact Hin. rewrite IH. clear IH.
    induction routes as [|[key route] routes IHr]; cbn [map app select fst snd].
    + destruct (select _ _ _ _ _); reflexivity.
    + destruct (route_test u method qp bp (ns, key, route)) as [[ps|]|e] eqn:Ht.
      * destruct (selected u qp bp (ns, key, route) ps) as [l [[resp|]|e]] eqn:Hs;
          try reflexivity.
        exfalso. revert Hs. apply selected_not_none.
      * exact IHr.
      * reflexivity.
  - rewrite IH. symmetry. apply select_app. now apply route_test_outside.
Qed.

Lemma Object_entries_named {A} (o : jsobj A) :
  (forall k, In k (map fst o) -> array_index k = None) ->
  Object_entries o = o.
Proof.
  intros H. unfold Object_entries.
  assert (Hi : index_entries o = []).
  { induction o as [|[k v] o IH]; [reflexivity|]. simpl.
    rewrite (H k) by (simpl; auto). apply IH. intros k' Hk'. apply H. simpl; auto. }
  rewrite Hi. simpl. unfold named_entries.
  induction o as [|[k v] o IH]; [reflexivity|]. simpl.
  rewrite (H k) by (simpl; auto). f_equal. apply IH.
  - intros k' Hk'. apply H. simpl; auto.
  - simpl in Hi. rewrite (H k) in Hi by (simpl; auto). exact Hi.
Qed.

(** The first candidate whose test does not say no decides the scan. *)
Lemma select_cases (u : URL) (method : string) (qp bp : jsval) (cs : list Candidate) :
  (Forall (fun c => route_test u method qp bp c = Normal None) cs /\
   select u method qp bp cs = ([], Normal None)) \/
  (exists before c after,
      cs = (before ++ c :: after)%list /\
      Forall (fun c => route_test u method qp bp c = Normal None) before /\
      ((exists ps, route_test u method qp bp c = Normal (Some ps) /\
                   select u method qp bp cs = selected u qp bp c ps) \/
       (exists e, route_test u method qp bp c = Throw e /\
                  select u method qp bp cs = ([], Throw e)))).
Proof.
  induction cs as [|c cs IH].
  - left. split; [constructor | reflexivity].
  - cbn [select]. destruct (route_test u method qp bp c) as [[ps|]|e] eqn:Ht.
    + right. exists [], c, cs. split; [reflexivity|]. split; [constructor|].
      left. exists ps. split; [exact Ht | reflexivity].
    + destruct IH as [[Hall Hs] | (before & c' & after & -> & Hb & Hc)].
      * left. split; [now constructor | exact Hs].
      * right. exists (c :: before), c', after. split; [reflexivity|].
        split; [now constructor|]. exact Hc.
    + right. exists [], c, cs. split; [reflexivity|]. split; [constructor|].
      right. exists e. split; [exact Ht | reflexivity].
Qed.

Lemma selected_snd (u : URL) (qp bp : jsval) (ns key : string) (route : Route)
      (ps : jsobj jsval) :
  snd (selected u qp bp (ns, key, route) ps) =
  match snd (executeHandler (handler route)
               {| queryParams := qp; bodyParams := bp; params := ps |}) with
  | Normal resp => Normal (Some resp)
  | Throw e => Throw e
  end.
Proof. unfold selected. destruct (executeHandler _ _) as [l r]. reflexivity. Qed.

(** What the test of one route says: it passes exactly on the four
    conditions. *)
Lemma route_test_passes (u : URL) (method : string) (qp bp : jsval)
      (ns key : string) (route : Route) (ps : jsobj jsval) :
  route_test u method qp bp (ns, key, route) = Normal (Some ps) <->
  includes (hostname u) ns = true /\
  exists routePath,
    nth_error (split " " key) 1 = Some routePath /\
    nth 0 (split " " key) "" = method /\
    matchPath (pathname u) routePath = Normal (Some ps) /\
    matchParams qp (expectedQueryParams route) = Normal true /\
    matchParams bp (expectedBodyParams route) = Normal true.
Proof.
  cbn [route_test]. split.
  - destruct (includes (hostname u) ns); [|discriminate].
    destruct (nth_error (split " " key) 1) as [routePath|]; [|discriminate].
    destruct (matchPath (pathname u) routePath) as [m|e] eqn:Hp; [|discriminate].
    cbn [bind].
    destruct (String.eqb_spec (nth 0 (split " " key) "") method) as [Hm|]; [|discriminate].
    destruct m as [ps'|]; [|discriminate].
    destruct (matchParams qp (expectedQueryParams route)) as [[|]|e]; cbn [bind];
      try discriminate.
    destruct (matchParams bp (expectedBodyParams route)) as [[|]|e]; cbn [bind];
      try discriminate.
    intros [= <-]. split; [reflexivity|]. exists routePath. repeat split; auto.
  - intros (-> & routePath & -> & Hm & -> & -> & ->). cbn [bind].
    rewrite Hm, String.eqb_refl. reflexivity.
Qed.

(** C7, as the code has it.  For a request with a URL that parses,
    [routeRequest] tries the candidates in order and the first one whose
    test does not say no decides.  If it satisfies the four conditions
    (the hostname contains the name of its namespace, its method is the
    one of the request, the path matches, and the query and body
    constraints hold) it is selected and its handler answers, whatever
    routes come after it; if trying it throws, as for a path that is not a
    regular expression, which is compiled before the methods are compared,
    the request fails with what was thrown; if every candidate says no,
    the result is [null].  One of the three always is the case.  Within a
    namespace the order is the registration order; across namespaces it is
    the order of [Object.entries], which is the insertion order when no
    namespace name is an array index. *)
Theorem first_match_selected
        (nss : jsobj RouteMap) (url method : string) (init : RequestInit) (u : URL) :
  URL_new url = Normal u ->
  let qp := string_object (Object_fromEntries (searchParams u)) in
  let bp := snd (decodeBody method init) in
  (forall before after ns key route routePath more ps,
      candidates nss = (before ++ (ns, key, route) :: after)%list ->
      Forall (fun c => route_test u method qp bp c = Normal None) before ->
      includes (hostname u) ns = true ->
      split " " key = method :: routePath :: more ->
      matchPath (pathname u) routePath = Normal (Some ps) ->
      matchParams qp (expectedQueryParams route) = Normal true ->
      matchParams bp (expectedBodyParams route) = Normal true ->
      snd (routeRequest nss url method init) =
      match snd (executeHandler (handler route)
                   {| queryParams := qp; bodyParams := bp; params := ps |}) with
      | Normal resp => Normal (Some resp)
      | Throw e => Throw e
      end) /\
  (Forall (fun c => route_test u method qp bp c = Normal None) (candidates nss) ->
   snd (routeRequest nss url method init) = Normal None) /\
  ((forall name, In name (map fst nss) -> array_index name = None) ->
   candidates nss = candidates_insertion_order nss) /\
  (forall before after c e,
      candidates nss = (before ++ c :: after)%list ->
      Forall (fun c => route_test u method qp bp c = Normal None) before ->
      route_test u method qp bp c = Throw e ->
      snd (routeRequest nss url method init) = Throw e) /\
  ((Forall (fun c => route_test u method qp bp c = Normal None) (candidates nss) /\
    snd (routeRequest nss url method init) = Normal None) \/
   (exists before ns key route after,
       candidates nss = (before ++ (ns, key, route) :: after)%list /\
       Forall (fun c => route_test u method qp bp c = Normal None) before /\
       ((exists ps,
            route_test u method qp bp (ns, key, route) = Normal (Some ps) /\
            snd (routeRequest nss url method init) =
            match snd (executeHandler (handler route)
                         {| queryParams := qp; bodyParams := bp; params := ps |}) with
            | Normal resp => Normal (Some resp)
            | Throw e => Throw e
            end) \/
        (exists e,
            route_test u method qp bp (ns, key, route) = Throw e /\
            snd (routeRequest nss url method init) = Throw e)))) /\
  (forall ns key route ps,
      route_test u method qp bp (ns, key, route) = Normal (Some ps) <->
      includes (hostname u) ns = true /\
      exists routePath,
        nth_error (split " " key) 1 = Some routePath /\
        nth 0 (split " " key) "" = method /\
        matchPath (pathname u) routePath = Normal (Some ps) /\
        matchParams qp (expectedQueryParams route) = Normal true /\
        matchParams bp (expectedBodyParams route) = Normal true).
Proof.
  intros Hu qp bp.
  assert (Hrr : snd (routeRequest nss url method init) =
                snd (select u method qp bp (candidates nss))).
  { unfold routeRequest. rewrite Hu. subst qp bp.
    destruct (decodeBody method init) as [l1 b]. rewrite scanNamespaces_select.
    unfold candidates. destruct (select _ _ _ _ _). reflexivity. }
  split; [|split; [|split; [|split; [|split]]]].
  - intros before after ns key route routePath more ps Hc Hbefore Hin Hkey Hpath Hq Hb.
    rewrite Hrr, Hc, select_app by exact Hbefore.
    cbn [select route_test]. rewrite Hin, Hkey. cbn [nth_error nth].
    rewrite Hpath. cbn [bind]. rewrite String.eqb_refl, Hq. cbn [bind].
    rewrite Hb. cbn [bind]. unfold selected.
    destruct (executeHandler _ _) as [l r]. reflexivity.
  - intros Hall. rewrite Hrr, select_rejected by exact Hall. reflexivity.
  - intros Hnames. unfold candidates, candidates_insertion_order.
    now rewrite Object_entries_named.
  - intros before after c e Hc Hbefore Ht.
    rewrite Hrr, Hc, select_app by exact Hbefore. cbn [select]. now rewrite Ht.
  - rewrite Hrr.
    destruct (select_cases u method qp bp (candidates nss))
      as [[Hall Hs] | (before & [[ns key] route] & after & Hc & Hb & Hcase)].
    + left. split; [exact Hall | now rewrite Hs].
    + right. exists before, ns, key, route, after. split; [exact Hc|].
      split; [exact Hb|].
      destruct Hcase as [(ps & Ht & Hs) | (e & Ht & Hs)].
      * left. exists ps. split; [exact Ht|]. rewrite Hs. apply selected_snd.
      * right. exists e. split; [exact Ht | now rewrite Hs].
  - intros ns key route ps. apply route_test_passes.
Qed.

End Dispatch.

Lemma first_match_selected_witness :
  exists r,
    snd (routeRequest (namespaces Sample.api_then_1) "https://api1.example.com/users"
           "GET" Sample.no_init) = Normal (Some r) /\
    status r = 201.
Proof.
  pose proof (proj1 (@first_match_selected Node.platform
                (namespaces Sample.api_then_1) "https://api1.example.com/users" "GET"
                Sample.no_init Sample.api1_users eq_refl)
                [] [("api", "GET /users",
                     {| handler := Sample.users; expectedQueryParams := None;
                        expectedBodyParams := None |})]
                "1" "GET /users"
                {| handler := Sample.created; expectedQueryParams := None;
                   expectedBodyParams := None |}
                "/users" [] [] eq_refl (Forall_nil _) eq_refl eq_refl eq_refl eq_refl
                eq_refl) as H.
  eexists. split; [exact H | reflexivity].
Defined.

(** C7 as stated fails: with the namespaces [api] and [1] created in this
    order, the first matching route in insertion order is the one of
    [api] (status 200), and the code answers with the one of [1]
    (status 201). *)
Lemma insertion_order_counterexample :
  map fst (namespaces Sample.api_then_1) = ["api"; "1"] /\
  Node.URL_new "https://api1.example.com/users" = Normal Sample.api1_users /\
  (exists r, snd (select Sample.api1_users "GET" (VObj []) (VObj [])
                    (candidates_insertion_order (namespaces Sample.api_then_1)))
             = Normal (Some r) /\ status r = 200) /\
  (exists r, snd (routeRequest (namespaces Sample.api_then_1)
                    "https://api1.example.com/users" "GET" Sample.no_init)
             = Normal (Some r) /\ status r = 201).
Proof.
  split; [reflexivity|]. split; [reflexivity|].
  split; eexists; split; reflexivity.
Qed.

(* ================================================================= *)
(** ** Independence of the namespaces *)

Lemma same_but_refl (B : string) (o : list (string * RouteMap)) : same_but B o o.
Proof. induction o; constructor; auto. Qed.

Lemma obj_set_same_but (B : string) (o : jsobj RouteMap) (routes routes' : RouteMap) :
  own_get o B = Some routes -> same_but B o (obj_set o B routes').
Proof.
  induction o as [|[k v] o IH]; simpl; [discriminate|].
  destruct (String.eqb_spec k B) as [->|Hne]; intros H.
  - constructor; [|apply same_but_refl]. simpl. split; congruence.
  - constructor; [simpl; auto | now apply IH].
Qed.

Lemma insert_index_same (B : string) (n : N) (kv kv' : string * RouteMap)
      (l l' : list (N * (string * RouteMap))) :
  fst kv = fst kv' -> (fst kv <> B -> snd kv = snd kv') ->
  same_indexed B l l' ->
  same_indexed B (insert_index n kv l) (insert_index n kv' l').
Proof.
  intros Hk Hv H. induction H as [|[m x] [m' x'] l l' (Hm & Hx) H IH]; simpl.
  - constructor; [simpl; auto | constructor].
  - simpl in Hm. subst m'. destruct (N.leb n m).
    + constructor; [simpl; auto|]. constructor; [simpl; auto | exact H].
    + constructor; [simpl; auto | exact IH].
Qed.

Lemma index_entries_same (B : string) (o o' : jsobj RouteMap) :
  same_but B o o' -> same_indexed B (index_entries o) (index_entries o').
Proof.
  induction 1 as [|[k v] [k' v'] o o' (Hk & Hv) H IH]; simpl; [constructor|].
  simpl in Hk, Hv. subst k'. destruct (array_index k); [|exact IH].
  now apply insert_index_same.
Qed.

Lemma Object_entries_same (B : string) (o o' : jsobj RouteMap) :
  same_but B o o' -> same_but B (Object_entries o) (Object_entries o').
Proof.
  intros H. unfold Object_entries, same_but. apply Forall2_app.
  - pose proof (index_entries_same H) as Hi.
    induction Hi as [|[m x] [m' x'] l l' (_ & Hx) _ IH]; simpl; constructor; auto.
  - unfold named_entries.
    induction H as [|[k v] [k' v'] o o' (Hk & Hv) H IH]; simpl; [constructor|].
    simpl in Hk, Hv. subst k'. destruct (array_index k); [exact IH|].
    constructor; [simpl; auto | exact IH].
Qed.

Lemma In_insert_index {A} (n : N) (kv : string * A) (l : list (N * (string * A)))
      (x : N * (string * A)) :
  In x (insert_index n kv l) -> x = (n, kv) \/ In x l.
Proof.
  induction l as [|[m kv'] l IH]; simpl.
  - intros [<-|[]]; auto.
  - destruct (N.leb n m); simpl; intros [<-|H]; auto.
    destruct (IH H); auto.
Qed.

Lemma In_Object_entries {A} (o : jsobj A) (e : string * A) :
  In e (Object_entries o) -> In e o.
Proof.
  unfold Object_entries. intros H. apply in_app_or in H as [H|H].
  - apply in_map_iff in H as ([n kv] & <- & H). simpl.
    induction o as [|[k v] o IH]; simpl in *; [contradiction|].
    destruct (array_index k).
    + apply In_insert_index in H as [[= _ <-]|H]; auto.
    + auto.
  - unfold named_entries in H. now apply filter_In in H.
Qed.

Lemma In_insert_index_inv {A} (n : N) (kv : string * A) (l : list (N * (string * A)))
      (x : N * (string * A)) :
  x = (n, kv) \/ In x l -> In x (insert_index n kv l).
Proof.
  induction l as [|[m kv'] l IH]; simpl.
  - intros [->|[]]. now left.
  - destruct (N.leb n m); simpl; intros [->|[H|H]]; auto.
Qed.

Lemma In_Object_entries_inv {A} (o : jsobj A) (e : string * A) :
  In e o -> In e (Object_entries o).
Proof.
  unfold Object_entries. intros H. apply in_or_app.
  destruct (array_index (fst e)) as [n|] eqn:E.
  - left. apply in_map_iff. exists (n, e). split; [reflexivity|].
    induction o as [|[k v] o IH]; [contradiction|]. simpl.
    destruct H as [<-|H].
    + simpl in E. rewrite E. apply In_insert_index_inv. now left.
    + destruct (array_index k); [apply In_insert_index_inv; right|]; now apply IH.
  - right. unfold named_entries. apply filter_In. split; [exact H|]. now rewrite E.
Qed.

Section Independence.
Context {P : Platform}.

Lemma select_none_logs (u : URL) (method : string) (qp bp : jsval) (cs : list Candidate)
      (l : list LogEntry) :
  select u method qp bp cs = (l, Normal None) -> l = [].
Proof.
  induction cs as [|c cs IH]; cbn [select]; [now intros [= <-]|].
  destruct (route_test u method qp bp c) as [[ps|]|e]; [| exact IH | discriminate].
  intros H. now destruct (selected_not_none _ _ _ _ _ H).
Qed.

(** When the hostname contains the name of one namespace only, the request
    is resolved by the scan of the routes of that namespace. *)
Lemma scanNamespaces_only (u : URL) (method : string) (qp bp : jsval)
      (A : string) (routes : RouteMap) (es : list (string * RouteMap)) :
  includes (hostname u) A = true ->
  (forall e, In e es -> e = (A, routes) \/ includes (hostname u) (fst e) = false) ->
  In (A, routes) es ->
  scanNamespaces u method qp bp es = scanRoutes A u method qp bp routes.
Proof.
  intros HA Hes Hin.
  assert (Hnone : forall es',
             (forall e, In e es' -> e = (A, routes) \/
                                    includes (hostname u) (fst e) = false) ->
             scanRoutes A u method qp bp routes = ([], Normal None) ->
             scanNamespaces u method qp bp es' = ([], Normal None)).
  { intros es' Hes' Hs. induction es' as [|[n r] es' IH]; [reflexivity|].
    cbn [scanNamespaces].
    assert (IH' : scanNamespaces u method qp bp es' = ([], Normal None)).
    { apply IH. intros e He. apply Hes'. now right. }
    destruct (Hes' (n, r) (or_introl eq_refl)) as [[= -> ->] | Hout].
    - rewrite HA, Hs, IH'. reflexivity.
    - cbn [fst] in Hout. rewrite Hout. exact IH'. }
  induction es as [|[n r] es IH]; [contradiction|].
  cbn [scanNamespaces].
  destruct (Hes (n, r) (or_introl eq_refl)) as [[= -> ->] | Hout].
  - rewrite HA.
    destruct (scanRoutes A u method qp bp routes) as [l [[resp|]|e]] eqn:Hs;
      try reflexivity.
    assert (l = []) as ->.
    { rewrite scanRoutes_select in Hs by exact HA. now apply select_none_logs in Hs. }
    rewrite (Hnone es); [reflexivity | | reflexivity].
    intros e He. apply Hes. now right.
  - cbn [fst] in Hout. rewrite Hout.
    destruct Hin as [[= -> _] | Hin]; [congruence|].
    apply IH; [|exact Hin]. intros e He. apply Hes. now right.
Qed.

Lemma scanNamespaces_same (B : string) (u : URL) (method : string) (qp bp : jsval)
      (es es' : list (string * RouteMap)) :
  includes (hostname u) B = false ->
  same_but B es es' ->
  scanNamespaces u method qp bp es' = scanNamespaces u method qp bp es.
Proof.
  intros Hout H.
  induction H as [|[k v] [k' v'] es es' (Hk & Hv) H IH]; [reflexivity|].
  simpl in Hk, Hv. subst k'. cbn [scanNamespaces].
  destruct (String.eqb_spec k B) as [->|Hne].
  - now rewrite Hout.
  - rewrite <- (Hv Hne), IH. reflexivity.
Qed.

Lemma routeRequest_same (B : string) (nss nss' : jsobj RouteMap) (url method : string)
      (init : RequestInit) (u : URL) :
  URL_new url = Normal u ->
  includes (hostname u) B = false ->
  same_but B nss nss' ->
  routeRequest nss' url method init = routeRequest nss url method init.
Proof.
  intros Hu Hout H. unfold routeRequest. rewrite Hu.
  destruct (decodeBody method init) as [l1 bp].
  now rewrite (scanNamespaces_same _ _ _ _ Hout (Object_entries_same H)).
Qed.

(** C3, as the code has it.  A namespace takes part in a request exactly
    when the hostname contains its name.  For a request whose hostname
    does not contain the name of [B], registering a route in [B] changes
    nothing of what [routeRequest] returns and logs, nor of what the
    caller of the intercepted fetch receives.  For a request whose
    hostname contains the name of the namespace [A], and of no other
    namespace, what [routeRequest] returns is the scan of the routes of
    [A].  Every route tried under the name of a namespace belongs to a
    namespace of that name. *)
Theorem namespaces_independent
        (st st' : FetchMocker) (B method path : string) (h : Handler) (o : RouteOptions)
        (url m : string) (init : RequestInit) (u : URL) :
  addRoute st B method path h o = Normal st' ->
  URL_new url = Normal u ->
  includes (hostname u) B = false ->
  routeRequest (namespaces st') url m init = routeRequest (namespaces st) url m init /\
  (forall input init', input_url input = url ->
     snd (mockFetch st' input init') = snd (mockFetch st input init')) /\
  (forall nss A routes,
     In (A, routes) nss ->
     includes (hostname u) A = true ->
     (forall name routes', In (name, routes') nss ->
                           (name, routes') = (A, routes) \/
                           includes (hostname u) name = false) ->
     snd (routeRequest nss url m init) =
     snd (scanRoutes A u m (string_object (Object_fromEntries (searchParams u)))
                     (snd (decodeBody m init)) routes)) /\
  (forall A key route,
     In (A, key, route) (candidates (namespaces st')) ->
     exists routes, In (A, routes) (namespaces st') /\ In (key, route) routes).
Proof.
  intros Hadd Hu Hout.
  assert (Hsame : same_but B (namespaces st) (namespaces st')).
  { revert Hadd. unfold addRoute, namespaces_get.
    destruct (own_get (namespaces st) B) as [routes|] eqn:Hown.
    - destruct (Map_has _ _); intros [= <-]; simpl.
      + apply same_but_refl.
      + eapply obj_set_same_but; eauto.
    - destruct (inherited B); discriminate. }
  split; [|split; [|split]].
  - eapply routeRequest_same; eauto.
  - intros input init' <-. rewrite !mockFetch_result.
    now rewrite routeRequest_same with (B := B) (nss := namespaces st) (u := u).
  - intros nss A routes Hin HA Honly. unfold routeRequest. rewrite Hu.
    destruct (decodeBody m init) as [l1 bp]. cbn [snd].
    rewrite (@scanNamespaces_only u m (string_object (Object_fromEntries (searchParams u)))
               bp A routes (Object_entries nss)).
    + destruct (scanRoutes A u m _ bp routes). reflexivity.
    + exact HA.
    + intros [name routes'] He. apply Honly. now apply In_Object_entries.
    + now apply In_Object_entries_inv.
  - intros A key route Hin. unfold candidates, candidates_of in Hin.
    apply in_flat_map in Hin as ([A' routes] & He & Hin).
    apply in_map_iff in Hin as ([key' route'] & [= -> -> ->] & Hin).
    exists routes. split; [now apply In_Object_entries | exact Hin].
Qed.

End Independence.

Lemma namespaces_independent_witness :
  routeRequest (namespaces Sample.api_and_example) "https://api.com/users" "GET"
               Sample.no_init =
  routeRequest (namespaces Sample.api_dashboard) "https://api.com/users" "GET"
               Sample.no_init.
Proof.
  exact (proj1 (@namespaces_independent Node.platform
                  (namespace Sample.api_dashboard "example") Sample.api_and_example
                  "example" "GET" "/users" Sample.created no_options
                  "https://api.com/users" "GET" Sample.no_init
                  {| hostname := "api.com"; pathname := "/users"; searchParams := [] |}
                  eq_refl eq_refl eq_refl)).
Defined.

(** C3 as stated fails: the hostname [api.example.com] contains the names
    of both namespaces; the request is not found while only [api] has
    routes, and a route registered in [example] then answers it. *)
Lemma shared_hostname_counterexample :
  (exists u, Node.URL_new "https://api.example.com/users" = Normal u /\
             includes (hostname u) "api" = true) /\
  snd (fetch Sample.api_dashboard (InputString "https://api.example.com/users")
         Sample.no_init) = Intercepted (Normal not_found) /\
  (exists r, snd (fetch Sample.api_and_example
                    (InputString "https://api.example.com/users") Sample.no_init)
             = Intercepted (Normal r) /\ status r = 201).
Proof.
  split; [eexists; split; reflexivity|].
  split; [reflexivity | eexists; split; reflexivity].
Qed.

(* ================================================================= *)
(** ** Failures and the caller *)

Section NoThrow.
Context {P : Platform} {L : PlatformLaws P}.



Lemma server_error_response : Response_new (VStr "Server Error") 500 [] = Normal server_error.
Proof. apply Response_new_plain. now right. Qed.





End NoThrow.



(** The other ways of leaving the caller without a response: a route path
    that is not a regular expression, a JSON body [null] tested against a
    body constraint, a handler that throws [null], a handler that never
    settles. *)
Lemma other_failures_reach_the_caller :
  snd (fetch Sample.api_bad_pattern (InputString "https://api.com/users")
         Sample.no_init) =
  Intercepted (Throw (JsError "SyntaxError" "Invalid regular expression")) /\
  snd (fetch Sample.api_body_constraint (InputString "https://api.com/users")
         (Sample.post [("Content-Type", "application/json")] "null")) =
  Intercepted (Throw (JsError "TypeError"
                        "Cannot read properties of null (reading 'role')")) /\
  snd (fetch Sample.api_throws_null (InputString "https://api.com/users")
         Sample.no_init) =
  Intercepted (Throw (JsError "TypeError"
                        "Cannot read properties of null (reading 'message')")) /\
  snd (fetch Sample.api_hangs (InputString "https://api.com/users") Sample.no_init) =
  Intercepted (Throw NeverSettles).
Proof. repeat split. Qed.

(* ================================================================= *)
(** ** Path matcher *)

Lemma append_nil_r (s : string) : s ++ "" = s.
Proof. induction s; simpl; congruence. Qed.

Lemma append_assoc (a b c : string) : (a ++ b) ++ c = a ++ b ++ c.
Proof. induction a; simpl; congruence. Qed.

Lemma render_app (l1 l2 : list item) : render (l1 ++ l2) = render l1 ++ render l2.
Proof.
  induction l1 as [|[c| |] l1 IH]; simpl; rewrite ?IH; try reflexivity.
Qed.

Lemma render_lits (s : string) : render (lits s) = s.
Proof. induction s; simpl; congruence. Qed.

Section PathMatcher.
Context {P : Platform}.

(** The scan of [replace] over a literal segment copies it. *)
Lemma replace_literal (s rest : string) :
  literal_ok s = true ->
  replace_params (s ++ rest) None =
  (let (out, names) := replace_params rest None in (s ++ out, names)).
Proof.
  induction s as [|c s IH]; intros Hs.
  - simpl. destruct (replace_params rest None). reflexivity.
  - simpl in Hs. apply andb_true_iff in Hs as [Hc Hs].
    apply andb_true_iff in Hc as [_ Hc]. apply negb_true_iff in Hc.
    cbn [append replace_params]. rewrite Hc, (IH Hs).
    destruct (replace_params rest None). reflexivity.
Qed.

(** Inside a key the scan takes every character that is not a slash. *)
Lemma replace_key (k' k rest : string) :
  all_chars not_slash k' = true ->
  replace_params (k' ++ rest) (Some k) = replace_params rest (Some (k ++ k')).
Proof.
  revert k. induction k' as [|c k' IH]; intros k Hk.
  - now rewrite append_nil_r.
  - simpl in Hk. apply andb_true_iff in Hk as [Hc Hk].
    unfold not_slash in Hc. apply negb_true_iff in Hc.
    cbn [append replace_params]. rewrite Hc, (IH _ Hk), append_assoc. reflexivity.
Qed.

(** A parameter segment becomes a group and gives its name. *)
Lemma replace_param (name rest : string) :
  param_ok name = true ->
  replace_params (String ":" name ++ rest) None = replace_params rest (Some name).
Proof.
  unfold param_ok. intros H. apply andb_true_iff in H as [Ht Hn].
  destruct name as [|d name]; [discriminate|].
  cbn [append replace_params]. rewrite Ascii.eqb_refl.
  pose proof Hn as Hd. simpl in Hd. apply andb_true_iff in Hd as [Hd _].
  unfold not_slash in Hd. apply negb_true_iff in Hd. rewrite Hd.
  simpl in Hn. apply andb_true_iff in Hn as [_ Hn].
  now rewrite (replace_key _ (String d "") rest Hn).
Qed.

Lemma replace_pattern (segs : list segment) :
  segs <> [] -> forallb segment_ok segs = true ->
  replace_params (pattern_of segs) None = (render (items_of segs), names_of segs).
Proof.
  induction segs as [|g r IH]; [congruence|]. intros _ Hok.
  simpl in Hok. apply andb_true_iff in Hok as [Hg Hr].
  destruct r as [|g' r'].
  - unfold pattern_of. cbn [map join items_of names_of flat_map app].
    destruct g as [s|name]; cbn [segment_text segment_items].
    + rewrite <- (append_nil_r s) at 1. rewrite (replace_literal _ "" Hg).
      cbn [replace_params]. now rewrite append_nil_r, render_lits.
    + rewrite <- (append_nil_r (String ":" name)).
      rewrite (replace_param _ "" Hg). reflexivity.
  - specialize (IH ltac:(discriminate) Hr).
    unfold pattern_of in *. cbn [map join] in *.
    change (items_of (g :: g' :: r'))
      with (segment_items g ++ Lit "/" :: items_of (g' :: r'))%list.
    change (names_of (g :: g' :: r'))
      with ((match g with Param name => [name] | Literal _ => [] end)
              ++ names_of (g' :: r'))%list.
    rewrite render_app.
    destruct g as [s|name]; cbn [segment_text segment_items].
    + rewrite (replace_literal _ _ Hg).
      change ("/" ++ ?x) with (String "/" x). cbn [replace_params].
      cbn [Ascii.eqb Bool.eqb]. rewrite IH, render_lits. reflexivity.
    + rewrite (replace_param _ _ Hg).
      change ("/" ++ ?x) with (String "/" x). cbn [replace_params].
      rewrite Ascii.eqb_refl. cbn [replace_params].
      cbn [Ascii.eqb Bool.eqb]. rewrite IH. reflexivity.
Qed.

End PathMatcher.

Lemma break_append (s : string) :
  fst (break is_slash s) ++ snd (break is_slash s) = s.
Proof.
  induction s as [|c s IH]; [reflexivity|]. simpl.
  destruct (is_slash c); [reflexivity|].
  destruct (break is_slash s). simpl in *. now rewrite IH.
Qed.

Lemma break_rest (s : string) :
  snd (break is_slash s) = "" \/ exists p, snd (break is_slash s) = String "/" p.
Proof.
  induction s as [|c s IH]; [now left|]. simpl.
  destruct (is_slash c) eqn:Hc.
  - right. unfold is_slash in Hc. apply Ascii.eqb_eq in Hc. subst c. simpl. eauto.
  - destruct (break is_slash s). exact IH.
Qed.

Lemma split_break (s : string) :
  split "/" s = fst (break is_slash s) :: tail_of (snd (break is_slash s)).
Proof.
  induction s as [|c s IH]; [reflexivity|]. simpl.
  fold (is_slash c). destruct (is_slash c); [reflexivity|].
  rewrite IH. destruct (break is_slash s). reflexivity.
Qed.

Lemma split_not_nil (s : string) : split "/" s <> [].
Proof. rewrite split_break. discriminate. Qed.

Lemma break_literal (s p : string) :
  all_chars not_slash s = true ->
  break is_slash (s ++ p) =
  (s ++ fst (break is_slash p), snd (break is_slash p)).
Proof.
  induction s as [|c s IH]; intros Hs.
  - simpl. now destruct (break is_slash p).
  - simpl in Hs. apply andb_true_iff in Hs as [Hc Hs].
    unfold not_slash in Hc. apply negb_true_iff in Hc.
    cbn [append break]. fold (is_slash c) in Hc. rewrite Hc, (IH Hs). reflexivity.
Qed.

Lemma strip_prefix_inv (s path p : string) :
  strip_prefix s path = Some p -> path = s ++ p.
Proof.
  revert path. induction s as [|a s IH]; intros path; simpl.
  - now intros [= ->].
  - destruct path as [|b path]; [discriminate|].
    destruct (Ascii.eqb_spec a b) as [->|]; [|discriminate].
    intros H. now rewrite (IH _ H).
Qed.

Lemma append_same (s x : string) : s ++ x = s -> x = "".
Proof. induction s as [|c s IH]; simpl; [auto|]. intros [= H]. auto. Qed.

Lemma literal_no_slash (s : string) : literal_ok s = true -> all_chars not_slash s = true.
Proof.
  induction s as [|c s IH]; [reflexivity|]. simpl. intros H.
  apply andb_true_iff in H as [Hc Hs]. apply andb_true_iff in Hc as [Hc _].
  apply andb_true_iff in Hc as [_ Hc]. rewrite Hc. simpl. auto.
Qed.

(** Literal items are matched as a prefix. *)
Lemma rmatch_lits (s : string) (items : list item) (path : string) :
  rmatch (lits s ++ items) path =
  match strip_prefix s path with
  | Some p => rmatch items p
  | None => None
  end.
Proof.
  revert path. induction s as [|c s IH]; intros path; [reflexivity|].
  cbn [lits app rmatch strip_prefix]. destruct path as [|d path]; [reflexivity|].
  destruct (Ascii.eqb c d); [apply IH | reflexivity].
Qed.

(** A group before the end, or before a slash, takes a whole segment. *)
Lemma group_break (k : string -> option (list string)) (acc s : string) :
  (forall c s', Ascii.eqb c "/" = false -> k (String c s') = None) ->
  group k acc s =
  (if truthy (fst (break is_slash s))
   then option_map (cons (acc ++ fst (break is_slash s))) (k (snd (break is_slash s)))
   else None).
Proof.
  intros Hk. revert acc. induction s as [|c s IH]; intros acc; [reflexivity|].
  cbn [group break]. fold (is_slash c).
  destruct (is_slash c) eqn:Hc; [reflexivity|].
  rewrite IH. destruct (break is_slash s) as [x rest] eqn:Hb. cbn [fst snd truthy].
  pose proof (break_append s) as Happ. rewrite Hb in Happ. simpl in Happ.
  rewrite append_assoc. cbn [append].
  destruct x as [|d x]; cbn [truthy].
  - simpl in Happ. now subst rest.
  - destruct (k rest) as [caps|]; [reflexivity|]. cbn [option_map].
    subst s. cbn [append].
    assert (Hd : Ascii.eqb d "/" = false).
    { pose proof (f_equal fst Hb) as Hf. clear -Hf.
      cbn [append break fst] in Hf. unfold is_slash in Hf.
      destruct (Ascii.eqb d "/"); [discriminate | reflexivity]. }
    now rewrite Hk.
Qed.

Lemma lits_plain (s : string) : literal_ok s = true -> forallb plain_item (lits s) = true.
Proof.
  induction s as [|c s IH]; [reflexivity|]. simpl. intros H.
  apply andb_true_iff in H as [Hc Hs]. apply andb_true_iff in Hc as [Hc _].
  apply andb_true_iff in Hc as [Hc _]. rewrite Hc. simpl. auto.
Qed.

Lemma items_plain (segs : list segment) :
  forallb segment_ok segs = true -> forallb plain_item (items_of segs) = true.
Proof.
  induction segs as [|g r IH]; [reflexivity|]. intros H.
  simpl in H. apply andb_true_iff in H as [Hg Hr].
  assert (Hi : forallb plain_item (segment_items g) = true).
  { destruct g; simpl; [now apply lits_plain | reflexivity]. }
  destruct r as [|g' r']; [exact Hi|].
  change (items_of (g :: g' :: r'))
    with (segment_items g ++ Lit "/" :: items_of (g' :: r'))%list.
  rewrite forallb_app, Hi. simpl. now apply IH.
Qed.

Lemma match_segments_nil (l : list string) :
  l <> [] -> match_segments [] l = None.
Proof. destruct l; [congruence | reflexivity]. Qed.

Lemma match_segments_short (g : segment) (r : list segment) :
  match_segments (g :: r) [] = None.
Proof. destruct g; reflexivity. Qed.

Lemma match_segments_literal (s : string) (r : list segment) (x : string)
      (p : list string) :
  match_segments (Literal s :: r) (x :: p) =
  (if String.eqb s x then match_segments r p else None).
Proof. reflexivity. Qed.

Lemma match_segments_param (name : string) (r : list segment) (x : string)
      (p : list string) :
  match_segments (Param name :: r) (x :: p) =
  (if truthy x then option_map (cons (name, x)) (match_segments r p) else None).
Proof. reflexivity. Qed.

Lemma eqb_append_more (s : string) (c : ascii) (x : string) :
  String.eqb s (s ++ String c x) = false.
Proof.
  destruct (String.eqb_spec s (s ++ String c x)) as [H|]; [|reflexivity].
  symmetry in H. apply append_same in H. discriminate.
Qed.

(** A literal segment that is a prefix of the path: the first segment of
    the path is the literal followed by the first segment of the rest. *)
Lemma break_after_prefix (s path p : string) :
  all_chars not_slash s = true ->
  strip_prefix s path = Some p ->
  break is_slash path = (s ++ fst (break is_slash p), snd (break is_slash p)).
Proof.
  intros Hs H. rewrite (strip_prefix_inv _ _ H). now apply break_literal.
Qed.

Lemma not_prefix_not_segment (s path : string) :
  strip_prefix s path = None -> String.eqb s (fst (break is_slash path)) = false.
Proof.
  intros H. destruct (String.eqb_spec s (fst (break is_slash path))) as [E|]; [|reflexivity].
  rewrite <- (break_append path), <- E, strip_prefix_app in H. discriminate.
Qed.

Lemma rmatch_end_slash_free (c : ascii) (s' : string) :
  Ascii.eqb c "/" = false -> rmatch [] (String c s') = None.
Proof. reflexivity. Qed.

Lemma rmatch_slash_slash_free (items : list item) (c : ascii) (s' : string) :
  Ascii.eqb c "/" = false -> rmatch (Lit "/" :: items) (String c s') = None.
Proof. intros H. cbn [rmatch]. now rewrite Ascii.eqb_sym, H. Qed.

Ltac now_split_not_nil :=
  match goal with
  | |- context [split "/" ?p] =>
      let H := fresh in
      pose proof (split_not_nil p) as H;
      destruct (split "/" p); [congruence | reflexivity]
  end.

(** On the regular expression of a pattern, matching is segment-wise. *)
Lemma rmatch_segments (segs : list segment) :
  segs <> [] -> forallb segment_ok segs = true ->
  forall path,
    rmatch (items_of segs) path =
    option_map (map snd) (match_segments segs (split "/" path)).
Proof.
  induction segs as [|g r IH]; [congruence|]. intros _ Hok path.
  simpl in Hok. apply andb_true_iff in Hok as [Hg Hr].
  rewrite split_break.
  destruct r as [|g' r'].
  - destruct g as [s|name]; cbn [items_of segment_items match_segments].
    + rewrite <- (app_nil_r (lits s)), rmatch_lits.
      destruct (strip_prefix s path) as [p|] eqn:Hs.
      * rewrite (break_after_prefix _ _ (literal_no_slash _ Hg) Hs). cbn [fst snd].
        destruct p as [|c p']; cbn [break fst snd].
        -- now rewrite append_nil_r, String.eqb_refl.
        -- cbn [rmatch]. destruct (is_slash c); cbn [fst snd tail_of].
           ++ rewrite append_nil_r, String.eqb_refl.
              now_split_not_nil.
           ++ destruct (break is_slash p'). cbn [fst snd].
              now rewrite eqb_append_more.
      * now rewrite (not_prefix_not_segment _ _ Hs).
    + cbn [rmatch]. rewrite group_break by apply rmatch_end_slash_free.
      destruct (break is_slash path) as [x rest]. cbn [fst snd append].
      destruct (truthy x); [|reflexivity].
      destruct rest as [|c p]; cbn [tail_of rmatch]; [reflexivity|].
      now_split_not_nil.
  - specialize (IH ltac:(discriminate) Hr).
    change (items_of (g :: g' :: r'))
      with (segment_items g ++ Lit "/" :: items_of (g' :: r'))%list.
    destruct g as [s|name]; cbn [segment_items].
    + rewrite match_segments_literal, rmatch_lits.
      destruct (strip_prefix s path) as [p|] eqn:Hs.
      * rewrite (break_after_prefix _ _ (literal_no_slash _ Hg) Hs). cbn [fst snd].
        destruct p as [|c p']; cbn [break fst snd].
        -- rewrite append_nil_r, String.eqb_refl. cbn [tail_of].
           now rewrite match_segments_short.
        -- cbn [rmatch]. rewrite Ascii.eqb_sym. fold (is_slash c).
           destruct (is_slash c); cbn [fst snd tail_of].
           ++ rewrite append_nil_r, String.eqb_refl. apply IH.
           ++ destruct (break is_slash p'). cbn [fst snd].
              now rewrite eqb_append_more.
      * now rewrite (not_prefix_not_segment _ _ Hs).
    + rewrite match_segments_param.
      cbn [app rmatch]. rewrite group_break by apply rmatch_slash_slash_free.
      pose proof (break_rest path) as Hrest.
      destruct (break is_slash path) as [x rest]. cbn [fst snd append] in *.
      destruct (truthy x); [|reflexivity].
      destruct Hrest as [-> | [p ->]]; cbn [tail_of].
      * now rewrite match_segments_short.
      * cbn [rmatch]. rewrite Ascii.eqb_refl, IH.
        destruct (match_segments (g' :: r') (split "/" p)); reflexivity.
Qed.

(** The names bound by a match are the parameter names of the pattern. *)
Lemma names_of_match (segs : list segment) :
  forall path bs, match_segments segs path = Some bs -> names_of segs = map fst bs.
Proof.
  induction segs as [|g r IH]; intros path bs.
  - destruct path; simpl; [now intros [= <-] | discriminate].
  - destruct path as [|x p]; [now rewrite match_segments_short|].
    destruct g as [s|name].
    + rewrite match_segments_literal. destruct (String.eqb s x); [|discriminate].
      apply IH.
    + rewrite match_segments_param. destruct (truthy x); [|discriminate].
      destruct (match_segments r p) as [bs'|] eqn:E; [|discriminate].
      intros [= <-]. simpl. f_equal. now apply (IH p).
Qed.

(** The reduction over [paramNames] builds the object of the bindings. *)
Lemma reduce_bind (bs : list (string * string)) :
  forall acc pre,
    reduce_params acc (map fst bs) (List.length pre)
                  (pre ++ map VStr (map snd bs))%list =
    fold_left (fun acc nb => obj_assign acc (fst nb) (VStr (snd nb))) bs acc.
Proof.
  induction bs as [|[k v] bs IH]; intros acc pre; [reflexivity|].
  cbn [map fst snd reduce_params fold_left].
  rewrite nth_middle.
  specialize (IH (obj_assign acc k (VStr v)) (pre ++ [VStr v])%list).
  rewrite length_app, Nat.add_1_r, <- app_assoc in IH. exact IH.
Qed.

Lemma own_get_obj_assign (acc : jsobj jsval) (k name : string) (v : jsval) :
  own_get (obj_assign acc k v) name =
  if String.eqb name "__proto__" then own_get acc name
  else if String.eqb k name then Some v else own_get acc name.
Proof.
  unfold obj_assign.
  destruct (String.eqb_spec name "__proto__") as [->|Hn].
  - destruct (String.eqb_spec k "__proto__") as [->|Hk]; [reflexivity|].
    now apply own_get_obj_set_neq.
  - destruct (String.eqb_spec k "__proto__") as [->|Hk].
    + destruct (String.eqb_spec "__proto__" name); [congruence | reflexivity].
    + destruct (String.eqb_spec k name) as [->|Hne].
      * apply own_get_obj_set_eq.
      * now apply own_get_obj_set_neq.
Qed.

Lemma own_get_bindings (name : string) (bs : list (string * string)) :
  forall acc,
    own_get (fold_left (fun acc nb => obj_assign acc (fst nb) (VStr (snd nb))) bs acc) name =
    if String.eqb name "__proto__" then own_get acc name
    else match last_binding name bs with
         | Some x => Some (VStr x)
         | None => own_get acc name
         end.
Proof.
  induction bs as [|[k v] bs IH]; intros acc.
  - cbn [fold_left last_binding]. now destruct (String.eqb name "__proto__").
  - cbn [fold_left fst snd last_binding]. rewrite IH, own_get_obj_assign.
    destruct (String.eqb name "__proto__"); [reflexivity|].
    destruct (last_binding name bs); [reflexivity|].
    destruct (String.eqb k name); reflexivity.
Qed.

Lemma match_segments_length (segs : list segment) :
  forall path bs, match_segments segs path = Some bs ->
                  List.length path = List.length segs.
Proof.
  induction segs as [|g r IH]; intros path bs.
  - destruct path; simpl; [reflexivity | discriminate].
  - destruct path as [|x p]; [now rewrite match_segments_short|].
    destruct g as [s|name].
    + rewrite match_segments_literal. destruct (String.eqb s x); [|discriminate].
      intros H. simpl. f_equal. now apply (IH p bs).
    + rewrite match_segments_param. destruct (truthy x); [|discriminate].
      destruct (match_segments r p) as [bs'|] eqn:E; [|discriminate].
      intros _. simpl. f_equal. now apply (IH p bs').
Qed.

Lemma match_segments_literal_at (segs : list segment) :
  forall path bs i s,
    match_segments segs path = Some bs ->
    nth_error segs i = Some (Literal s) -> nth_error path i = Some s.
Proof.
  induction segs as [|g r IH]; intros path bs i s.
  - destruct i; discriminate.
  - destruct path as [|x p]; [now rewrite match_segments_short|].
    destruct g as [s'|name].
    + rewrite match_segments_literal.
      destruct (String.eqb_spec s' x) as [->|]; [|discriminate].
      destruct i as [|i]; simpl; [now intros _ [= ->] | apply IH].
    + rewrite match_segments_param. destruct (truthy x); [|discriminate].
      destruct (match_segments r p) as [bs'|] eqn:E; [|discriminate].
      destruct i as [|i]; simpl; [discriminate|]. intros _. now apply (IH p bs').
Qed.

Lemma last_binding_none (name : string) (segs : list segment) :
  forall path bs,
    (forall j, nth_error segs j <> Some (Param name)) ->
    match_segments segs path = Some bs -> last_binding name bs = None.
Proof.
  induction segs as [|g r IH]; intros path bs Hno.
  - destruct path; simpl; [now intros [= <-] | discriminate].
  - destruct path as [|x p]; [now rewrite match_segments_short|].
    assert (Hr : forall j, nth_error r j <> Some (Param name))
      by (intros j; exact (Hno (S j))).
    destruct g as [s|name'].
    + rewrite match_segments_literal. destruct (String.eqb s x); [|discriminate].
      now apply IH.
    + rewrite match_segments_param. destruct (truthy x); [|discriminate].
      destruct (match_segments r p) as [bs'|] eqn:E; [|discriminate].
      intros [= <-]. cbn [last_binding]. rewrite (IH p bs' Hr E).
      destruct (String.eqb_spec name' name) as [->|]; [|reflexivity].
      now destruct (Hno 0%nat).
Qed.

Lemma match_segments_param_at (segs : list segment) :
  forall path bs i name,
    match_segments segs path = Some bs ->
    nth_error segs i = Some (Param name) ->
    (forall j, (i < j)%nat -> nth_error segs j <> Some (Param name)) ->
    exists x, nth_error path i = Some x /\ truthy x = true /\
              last_binding name bs = Some x.
Proof.
  induction segs as [|g r IH]; intros path bs i name.
  - destruct i; discriminate.
  - destruct path as [|x p]; [now rewrite match_segments_short|].
    destruct g as [s|name'].
    + rewrite match_segments_literal. destruct (String.eqb s x); [|discriminate].
      destruct i as [|i]; simpl; [discriminate|]. intros Hm Hi Hlater.
      apply (IH p bs i name Hm Hi). intros j Hj. apply (Hlater (S j)). lia.
    + rewrite match_segments_param. destruct (truthy x) eqn:Hx; [|discriminate].
      destruct (match_segments r p) as [bs'|] eqn:E; [|discriminate].
      intros [= <-]. destruct i as [|i]; simpl.
      * intros [= ->] Hlater. exists x. repeat split; trivial.
        assert (Hn : last_binding name bs' = None).
        { eapply last_binding_none; [|exact E].
          intros j. apply (Hlater (S j)). lia. }
        cbn [last_binding]. now rewrite Hn, String.eqb_refl.
      * intros Hi Hlater.
        destruct (IH p bs' i name E Hi) as (y & Hy & Hty & Hl).
        { intros j Hj. apply (Hlater (S j)). lia. }
        exists y. repeat split; trivial. cbn [last_binding]. now rewrite Hl.
Qed.

Section PathMatcherLaws.
Context {P : Platform} {L : PlatformLaws P}.

(** On a pattern made of literal segments and parameters, [matchPath]
    matches segment by segment. *)
Lemma matchPath_pattern (segs : list segment) (urlPath : string) :
  segs <> [] -> forallb segment_ok segs = true ->
  matchPath urlPath (pattern_of segs) =
  Normal (option_map bind_params (match_segments segs (split "/" urlPath))).
Proof.
  intros Hne Hok. unfold matchPath.
  rewrite (replace_pattern Hne Hok).
  rewrite RegExp_match_items by now apply items_plain.
  rewrite (rmatch_segments Hne Hok). cbn [bind].
  destruct (match_segments segs (split "/" urlPath)) as [bs|] eqn:Hm; [|reflexivity].
  cbn [option_map]. do 2 f_equal.
  rewrite (names_of_match _ _ Hm).
  apply (reduce_bind bs) with (pre := @nil jsval).
Qed.

(** C4, as the code has it.  For a route path whose segments are literal
    segments free of the characters of the regular-expression syntax and
    parameters [:name], the matcher matches exactly when the path has as
    many segments, equal literal segments and a non-empty segment at every
    parameter; each parameter is then bound to the string of its segment
    (the last one for a name used twice), but for a parameter named
    [__proto__], which takes part in the match and is bound to nothing.
    So [/users/:id] matches [/users/123] with [id] bound to the string
    [123], and does not match [/users/123/extra]. *)
Theorem path_matcher_by_segments (segs : list segment) (urlPath : string) :
  segs <> [] -> forallb segment_ok segs = true ->
  matchPath urlPath (pattern_of segs) =
    Normal (option_map bind_params (match_segments segs (split "/" urlPath))) /\
  (forall ps,
      matchPath urlPath (pattern_of segs) = Normal (Some ps) ->
      List.length (split "/" urlPath) = List.length segs /\
      (forall i s, nth_error segs i = Some (Literal s) ->
                   nth_error (split "/" urlPath) i = Some s) /\
      (forall i name,
          nth_error segs i = Some (Param name) ->
          (forall j, (i < j)%nat -> nth_error segs j <> Some (Param name)) ->
          exists x, nth_error (split "/" urlPath) i = Some x /\ truthy x = true /\
                    (name <> "__proto__" -> own_get ps name = Some (VStr x))) /\
      own_get ps "__proto__" = None) /\
  matchPath "/users/123" "/users/:id" = Normal (Some [("id", VStr "123")]) /\
  matchPath "/users/123/extra" "/users/:id" = Normal None /\
  matchPath "/users/123" "/users/:__proto__" = Normal (Some []).
Proof.
  intros Hne Hok. split; [now apply matchPath_pattern|]. split.
  - intros ps. rewrite (matchPath_pattern _ Hne Hok).
    destruct (match_segments segs (split "/" urlPath)) as [bs|] eqn:Hm; [|discriminate].
    intros [= <-]. split; [|split; [|split]].
    + eapply match_segments_length; eauto.
    + intros i s. eapply match_segments_literal_at; eauto.
    + intros i name Hi Hlater.
      destruct (@match_segments_param_at segs _ bs i name Hm Hi Hlater)
        as (x & Hx & Htx & Hl).
      exists x. repeat split; trivial. intros Hname.
      unfold bind_params. rewrite own_get_bindings, Hl.
      now destruct (String.eqb_spec name "__proto__").
    + unfold bind_params. now rewrite own_get_bindings.
  - change "/users/:id" with (pattern_of [Literal ""; Literal "users"; Param "id"]).
    change "/users/:__proto__"
      with (pattern_of [Literal ""; Literal "users"; Param "__proto__"]).
    rewrite !matchPath_pattern by (discriminate || reflexivity).
    repeat split; reflexivity.
Qed.

End PathMatcherLaws.

Lemma path_matcher_by_segments_witness :
  matchPath "/users/123" (pattern_of [Literal ""; Literal "users"; Param "id"]) =
  Normal (option_map bind_params
            (match_segments [Literal ""; Literal "users"; Param "id"]
                            (split "/" "/users/123"))).
Proof.
  refine (proj1 (@path_matcher_by_segments Node.platform NodeFacts.laws
                   [Literal ""; Literal "users"; Param "id"] "/users/123" _ eq_refl)).
  discriminate.
Defined.

(** C4 as stated fails: the literal segment [a.c] is read as a regular
    expression, and matches the different segment [abc]. *)
Lemma literal_segment_counterexample :
  matchPath "/abc" "/a.c" = Normal (Some []) /\
  split "/" "/a.c" = [""; "a.c"] /\
  split "/" "/abc" = [""; "abc"] /\
  "a.c" <> "abc".
Proof. repeat split. discriminate. Qed.

(* ================================================================= *)
(** ** The tests of the repository *)

(** The requests of the tests shipped with the source get the statuses the
    tests expect: the JSON list of users, the form data, the plain text,
    and the route with path, query and body parameters. *)
Lemma repository_tests :
  (exists r, snd (fetch Sample.tests (InputString "https://api.com/users")
                    Sample.no_init) = Intercepted (Normal r) /\ status r = 200) /\
  (exists r, snd (fetch Sample.tests (InputString "https://api.com/submit")
                    (Sample.post [("Content-Type", "application/x-www-form-urlencoded")]
                                 "name=test&action=submit"))
             = Intercepted (Normal r) /\ status r = 200) /\
  (exists r, snd (fetch Sample.tests (InputString "https://api.com/text")
                    (Sample.post [("Content-Type", "text/plain")] "Hello, World!"))
             = Intercepted (Normal r) /\ status r = 200) /\
  (exists r, snd (fetch Sample.tests
                    (InputString "https://api.example.com/users/123/update?action=edit")
                    (Sample.post [("Content-Type", "application/json")]
                       ("{" ++ dquote ++ "name" ++ dquote ++ ":" ++ dquote ++ "John Doe"
                            ++ dquote ++ "}")))
             = Intercepted (Normal r) /\ status r = 200) /\
  (exists r, snd (fetch Sample.tests
                    (InputString "https://api.example.com/users/456/update?action=edit")
                    (Sample.post [("Content-Type", "application/json")] "{}"))
             = Intercepted (Normal r) /\ r = server_error).
Proof.
  repeat split; eexists; split; reflexivity.
Qed.

(* ================================================================= *)
(** * Further properties of the code *)

(** ** Call log *)

Section CallLog.
Context {P : Platform}.

Lemma mockFetch_calls (st : FetchMocker) (input : FetchInput) (init : RequestInit) :
  calls (fst (mockFetch st input init)) = app (calls st) [call_of input init].
Proof.
  unfold mockFetch. destruct (routeRequest _ _ _ _) as [l [[resp|]|e]]; reflexivity.
Qed.


Lemma mockFetch_fields (st : FetchMocker) (input : FetchInput) (init : RequestInit) :
  namespaces (fst (mockFetch st input init)) = namespaces st /\
  isServerRunning (fst (mockFetch st input init)) = isServerRunning st /\
  global_fetch (fst (mockFetch st input init)) = global_fetch st.
Proof.
  unfold mockFetch. destruct (routeRequest _ _ _ _) as [l [[resp|]|e]]; auto.
Qed.

End CallLog.

(** ** Lifecycle *)

Section Lifecycle.
Context {P : Platform}.

(** The running flag and the installed function agree in the initial
    state, and [start], [stop], [reset], [restart], [namespace],
    [addRoute] and the intercepted fetch keep them in agreement. *)
Theorem lifecycle_consistent (st : FetchMocker) :
  consistent st ->
  consistent constructor /\
  consistent (start st) /\ consistent (stop st) /\ consistent (reset st) /\
  consistent (restart st) /\
  (forall name, consistent (namespace st name)) /\
  (forall ns method path h o st',
      addRoute st ns method path h o = Normal st' -> consistent st') /\
  (forall input init, consistent (fst (mockFetch st input init))).
Proof.
  unfold consistent. intros [H1 H2].
  split; [split; discriminate|].
  split; [unfold start; destruct (isServerRunning st) eqn:E; simpl;
          [rewrite E; split; auto | split; reflexivity]|].
  split; [split; discriminate|]. split; [split; discriminate|].
  split; [split; reflexivity|]. split; [|split].
  - intros name. unfold namespace. destruct (namespaces_get _ _); simpl; split; auto.
  - intros ns method path h o st' Hadd.
    destruct (addRoute_frame _ _ _ _ _ _ Hadd) as (_ & -> & ->). split; auto.
  - intros input init. destruct (mockFetch_fields st input init) as (_ & -> & ->).
    split; auto.
Qed.

(** [restart()] from any state: the server is running with the
    intercepted fetch installed, and every namespace, route and logged call
    is gone, so routes have to be registered again.  [stop()] from any
    state: the server is stopped with the original fetch, and a second
    [stop()] changes the console only. *)
Theorem restart_clears (st : FetchMocker) :
  (isServerRunning (restart st) = true /\ global_fetch (restart st) = MockFetch /\
   namespaces (restart st) = [] /\ calls (restart st) = []) /\
  (isServerRunning (stop st) = false /\ global_fetch (stop st) = OriginalFetch /\
   namespaces (stop st) = [] /\ getCalls (stop st) None = []) /\
  (namespaces (stop (stop st)) = namespaces (stop st) /\
   calls (stop (stop st)) = calls (stop st) /\
   isServerRunning (stop (stop st)) = isServerRunning (stop st) /\
   global_fetch (stop (stop st)) = global_fetch (stop st)) /\
  (isServerRunning st = true ->
   start st = logged st [(WARN, "Mock server is already running.")]).
Proof.
  repeat split; try reflexivity. unfold start. now intros ->.
Qed.

End Lifecycle.

Lemma lifecycle_consistent_witness :
  consistent (start Sample.api_users) /\ consistent (restart Sample.api_users).
Proof.
  pose proof (@lifecycle_consistent Node.platform Sample.api_users
                (conj (fun _ => eq_refl) (fun _ => eq_refl))) as H.
  split; [exact (proj1 (proj2 H)) | exact (proj1 (proj2 (proj2 (proj2 (proj2 H)))))].
Defined.

(** ** Registry *)

Lemma obj_set_absent {A} (o : jsobj A) (k : string) (v : A) :
  own_get o k = None -> obj_set o k v = (o ++ [(k, v)])%list.
Proof.
  induction o as [|[k' v'] o IH]; simpl; [reflexivity|].
  destruct (String.eqb k' k); [discriminate|]. intros H. now rewrite IH.
Qed.

Lemma obj_set_names {A} (o : jsobj A) (k : string) (v v' : A) :
  own_get o k = Some v' -> map fst (obj_set o k v) = map fst o.
Proof.
  induction o as [|[k0 v0] o IH]; simpl; [discriminate|].
  destruct (String.eqb k0 k); simpl; [reflexivity|]. intros H. now rewrite IH.
Qed.

Lemma split_cons (sep : ascii) (m rest : string) :
  all_chars (fun c => negb (Ascii.eqb c sep)) m = true ->
  split sep (m ++ String sep rest) = m :: split sep rest.
Proof.
  induction m as [|c m IH]; intros Hm.
  - simpl. now rewrite Ascii.eqb_refl.
  - simpl in Hm. apply andb_true_iff in Hm as [Hc Hm]. apply negb_true_iff in Hc.
    cbn [append split]. now rewrite Hc, (IH Hm).
Qed.

Lemma split_single (sep : ascii) (m : string) :
  all_chars (fun c => negb (Ascii.eqb c sep)) m = true -> split sep m = [m].
Proof.
  induction m as [|c m IH]; intros Hm; [reflexivity|].
  simpl in Hm. apply andb_true_iff in Hm as [Hc Hm]. apply negb_true_iff in Hc.
  cbn [split]. now rewrite Hc, (IH Hm).
Qed.

Lemma append_cancel (a x y : string) : a ++ x = a ++ y -> x = y.
Proof. induction a as [|c a IH]; simpl; [auto|]. intros [= H]. auto. Qed.

(** Two route keys made from methods without a space are equal only for
    the same method and the same path. *)
Lemma route_key_injective (m m' p p' : string) :
  space_free m = true -> space_free m' = true ->
  m ++ " " ++ p = m' ++ " " ++ p' -> m = m' /\ p = p'.
Proof.
  intros Hm Hm' H.
  pose proof (f_equal (split " ") H) as Hs.
  change (" " ++ p) with (String " " p) in Hs.
  change (" " ++ p') with (String " " p') in Hs.
  rewrite (split_cons " " m p Hm), (split_cons " " m' p' Hm') in Hs.
  injection Hs as -> _. split; [reflexivity|].
  apply append_cancel in H. now injection H.
Qed.

Section RegistryMore.

(** [namespace(name)] asked a second time changes nothing, not even the
    console.  Asked for a name the mocker has, or for a name that every
    object inherits (such as [constructor]), it changes nothing either.
    Asked for any other name it keeps every namespace and its routes in
    place, adds the new namespace last and empty, and logs its creation.
    The calls are as they were in every case. *)
Theorem namespace_idempotent (st : FetchMocker) (name : string) :
  namespace (namespace st name) name = namespace st name /\
  (forall routes, own_get (namespaces st) name = Some routes -> namespace st name = st) /\
  (own_get (namespaces st) name = None -> inherited name = true ->
   namespace st name = st) /\
  (own_get (namespaces st) name = None -> inherited name = false ->
   namespaces (namespace st name) = app (namespaces st) [(name, [])] /\
   console (namespace st name) =
     app (console st) [(LOG, "Namespace " ++ dquote ++ name ++ dquote ++ " created.")] /\
   isServerRunning (namespace st name) = isServerRunning st /\
   global_fetch (namespace st name) = global_fetch st) /\
  calls (namespace st name) = calls st.
Proof.
  unfold namespace at 2 3 4 5 6 7 8 9 10. unfold namespaces_get.
  destruct (own_get (namespaces st) name) as [routes|] eqn:Hown.
  - split; [|split; [|split; [|split]]];
      try (intros; discriminate); try (intros; reflexivity).
    unfold namespace, namespaces_get. now rewrite Hown.
  - destruct (inherited name) eqn:Hin.
    + split; [|split; [|split; [|split]]];
      try (intros; discriminate); try (intros; reflexivity).
      unfold namespace, namespaces_get. now rewrite Hown, Hin.
    + split; [|split; [|split; [|split]]];
      try (intros; discriminate); try (intros; reflexivity).
      * unfold namespace, namespaces_get. cbn [namespaces].
        now rewrite own_get_obj_set_eq.
      * intros _ _. cbn [namespaces console isServerRunning global_fetch].
        rewrite obj_set_absent by exact Hown. repeat split.
Qed.

(** A registration under a new key puts the route last in its namespace:
    the routes registered before keep their places, hence their priority,
    and the other namespaces, and the order of the namespaces, are as they
    were. *)
Theorem addRoute_appends
        (st : FetchMocker) (ns method path : string) (h : Handler) (o : RouteOptions)
        (routes : RouteMap) :
  own_get (namespaces st) ns = Some routes ->
  Map_has routes (method ++ " " ++ path) = false ->
  exists st',
    addRoute st ns method path h o = Normal st' /\
    own_get (namespaces st') ns =
      Some (app routes [(method ++ " " ++ path, route_of h o)]) /\
    map fst (namespaces st') = map fst (namespaces st) /\
    (forall other, other <> ns ->
                   own_get (namespaces st') other = own_get (namespaces st) other).
Proof.
  intros Hns Hno. unfold addRoute. rewrite (namespaces_get_own _ _ Hns).
  cbn [append] in Hno |- *. rewrite Hno. eexists. split; [reflexivity|].
  cbn [namespaces]. split; [|split].
  - rewrite own_get_obj_set_eq. unfold Map_set. rewrite obj_set_absent; [reflexivity|].
    unfold Map_has in Hno. now destruct (own_get routes _).
  - eapply obj_set_names; eauto.
  - intros other Hne. apply own_get_obj_set_neq. congruence.
Qed.

(** A registration leaves every other (method, path) pair as it was,
    registered or not, when the methods have no space: [GET] and [POST]
    on one path are two routes, and so are two paths under one method. *)
Theorem addRoute_other_keys
        (st st' : FetchMocker) (ns method path method' path' : string)
        (h : Handler) (o : RouteOptions) (routes : RouteMap) :
  space_free method = true -> space_free method' = true ->
  method <> method' \/ path <> path' ->
  own_get (namespaces st) ns = Some routes ->
  addRoute st ns method path h o = Normal st' ->
  exists routes',
    own_get (namespaces st') ns = Some routes' /\
    own_get routes' (method' ++ " " ++ path') = own_get routes (method' ++ " " ++ path').
Proof.
  intros Hm Hm' Hdiff Hns Hadd.
  assert (Hkey : method ++ " " ++ path <> method' ++ " " ++ path').
  { intros E. destruct (route_key_injective _ _ _ _ Hm Hm' E). tauto. }
  unfold addRoute in Hadd. rewrite (namespaces_get_own _ _ Hns) in Hadd.
  destruct (Map_has routes (method ++ " " ++ path)); injection Hadd as <-.
  - exists routes. split; [exact Hns | reflexivity].
  - cbn [namespaces]. rewrite own_get_obj_set_eq. eexists. split; [reflexivity|].
    unfold Map_set. now apply own_get_obj_set_neq.
Qed.

End RegistryMore.

Lemma addRoute_appends_witness :
  exists st',
    addRoute Sample.api_users "api" "POST" "/users" Sample.created no_options = Normal st' /\
    map fst (namespaces st') = ["api"].
Proof.
  destruct (@addRoute_appends Sample.api_users "api" "POST" "/users" Sample.created
              no_options
              [("GET /users", route_of Sample.users no_options)] eq_refl eq_refl)
    as (st' & H & _ & Hn & _).
  exists st'. split; [exact H | exact Hn].
Defined.

Lemma addRoute_other_keys_witness :
  exists routes',
    own_get (namespaces Sample.api_users) "api" = Some routes' /\
    own_get routes' "POST /users" = None.
Proof.
  assert (Hd : "GET" <> "POST") by discriminate.
  destruct (@addRoute_other_keys (namespace Sample.started "api") Sample.api_users
              "api" "GET" "/users" "POST" "/users" Sample.users no_options []
              eq_refl eq_refl (or_introl Hd) eq_refl eq_refl) as (routes' & H1 & H2).
  exists routes'. split; [exact H1 | exact H2].
Defined.

(** ** Route keys and route paths *)

Section RoutePaths.
Context {P : Platform}.

(** A route registered with a space in its path is tried with the part of
    the path before the first space: [routeKey.split(' ')] gives the rest
    to no variable. *)
Theorem path_after_space_ignored
        (ns : string) (u : URL) (method : string) (qp bp : jsval)
        (m p1 p2 : string) (route : Route) (rest : list (string * Route)) :
  space_free m = true -> space_free p1 = true ->
  scanRoutes ns u method qp bp ((m ++ " " ++ p1 ++ " " ++ p2, route) :: rest) =
  scanRoutes ns u method qp bp ((m ++ " " ++ p1, route) :: rest).
Proof.
  intros Hm Hp. cbn [scanRoutes].
  change (m ++ " " ++ p1 ++ " " ++ p2) with (m ++ String " " (p1 ++ String " " p2)).
  change (m ++ " " ++ p1) with (m ++ String " " p1).
  rewrite !(split_cons " " m _ Hm), (split_cons " " p1 p2 Hp), (split_single " " p1 Hp).
  reflexivity.
Qed.

Lemma replace_no_colon (s : string) :
  plain_path s = true -> replace_params s None = (s, []).
Proof.
  induction s as [|c s IH]; [reflexivity|]. intros H. simpl in H.
  apply andb_true_iff in H as [Hc Hs]. apply andb_true_iff in Hc as [_ Hc].
  apply negb_true_iff in Hc. cbn [replace_params]. now rewrite Hc, (IH Hs).
Qed.

Lemma plain_path_items (s : string) :
  plain_path s = true -> forallb plain_item (lits s) = true.
Proof.
  induction s as [|c s IH]; [reflexivity|]. simpl. intros H.
  apply andb_true_iff in H as [Hc Hs]. apply andb_true_iff in Hc as [Hc _].
  rewrite Hc. simpl. auto.
Qed.

Lemma rmatch_literal (s path : string) :
  rmatch (lits s) path = if String.eqb s path then Some [] else None.
Proof.
  revert path. induction s as [|c s IH]; intros [|d path]; try reflexivity.
  cbn [lits rmatch String.eqb]. destruct (Ascii.eqb c d); [apply IH | reflexivity].
Qed.

(** The names [replace] collects from any route path are not empty and
    have no slash. *)
Lemma replace_params_keys (s : string) :
  forall cur,
    match cur with
    | None => True
    | Some k => all_chars not_slash k = true /\
                (truthy k = true \/
                 exists c r, s = String c r /\ Ascii.eqb c "/" = false)
    end ->
    Forall key_ok (snd (replace_params s cur)).
Proof.
  assert (Happ : forall k c, all_chars not_slash k = true -> Ascii.eqb c "/" = false ->
                             all_chars not_slash (k ++ String c "") = true /\
                             truthy (k ++ String c "") = true).
  { intros k c Hk Hc. split.
    - induction k as [|d k IH]; simpl in *.
      + unfold not_slash. now rewrite Hc.
      + apply andb_true_iff in Hk as [-> Hk]. simpl. auto.
    - destruct k; reflexivity. }
  induction s as [|c s IH]; intros cur Hcur.
  - destruct cur as [k|]; simpl; [|constructor].
    destruct Hcur as (Hk & [Ht | (c & r & [=] & _)]).
    constructor; [split; assumption | constructor].
  - destruct cur as [k|]; cbn [replace_params].
    + destruct Hcur as (Hk & Ht). destruct (Ascii.eqb c "/") eqn:Hc.
      * specialize (IH None I). destruct (replace_params s None) as [out names].
        cbn [snd] in *. constructor; [|exact IH].
        split; [|exact Hk].
        destruct Ht as [Ht | (c' & r & [= <- _] & Hc')]; [exact Ht | congruence].
      * apply IH. destruct (Happ k c Hk Hc). auto.
    + destruct (Ascii.eqb c ":").
      * destruct s as [|d s']; [constructor|].
        destruct (Ascii.eqb d "/") eqn:Hd.
        -- specialize (IH None I). destruct (replace_params (String d s') None).
           exact IH.
        -- apply IH. split; [reflexivity|]. right. eauto.
      * specialize (IH None I). destruct (replace_params s None). exact IH.
Qed.

(** The parameter names of every route path are non-empty and free of
    slashes: a colon before a slash, or at the end of the path, names no
    parameter. *)
Theorem paramNames_well_formed (routePath : string) :
  Forall key_ok (snd (replace_params routePath None)).
Proof. now apply replace_params_keys. Qed.

End RoutePaths.

Section LiteralRoutes.
Context {P : Platform} {L : PlatformLaws P}.

(** A route path without parameters and without characters of the syntax
    of regular expressions matches the request path equal to it, character
    for character, and no other: no prefix, no trailing slash, no other
    letter case; it binds no parameter. *)
Theorem literal_route_exact (urlPath routePath : string) :
  plain_path routePath = true ->
  matchPath urlPath routePath =
  Normal (if String.eqb routePath urlPath then Some [] else None).
Proof.
  intros Hp. unfold matchPath. rewrite (replace_no_colon _ Hp).
  rewrite <- (render_lits routePath) at 1.
  rewrite RegExp_match_items by now apply plain_path_items.
  rewrite rmatch_literal. cbn [bind].
  destruct (String.eqb routePath urlPath); reflexivity.
Qed.

End LiteralRoutes.

Lemma path_after_space_ignored_witness :
  scanRoutes "api" Sample.api1_users "GET" (VObj []) (VObj [])
             [("GET /users and more", route_of Sample.users no_options)] =
  scanRoutes "api" Sample.api1_users "GET" (VObj []) (VObj [])
             [("GET /users", route_of Sample.users no_options)].
Proof.
  exact (@path_after_space_ignored Node.platform "api" Sample.api1_users "GET"
           (VObj []) (VObj []) "GET" "/users" "and more"
           (route_of Sample.users no_options) [] eq_refl eq_refl).
Defined.

Lemma literal_route_exact_witness :
  matchPath "/users/" "/users" = Normal None.
Proof.
  exact (@literal_route_exact Node.platform NodeFacts.laws "/users/" "/users" eq_refl).
Defined.

(** ** Enumeration of objects *)

Lemma insert_index_perm {A} (n : N) (kv : string * A) (l : list (N * (string * A))) :
  Permutation (insert_index n kv l) ((n, kv) :: l).
Proof.
  induction l as [|[m kv'] l IH]; simpl; [reflexivity|].
  destruct (N.leb n m); [reflexivity|].
  rewrite IH. apply perm_swap.
Qed.

Lemma insert_index_sorted {A} (n : N) (kv : string * A) (l : list (N * (string * A))) :
  Sorted (fun a b => (fst a <= fst b)%N) l ->
  Sorted (fun a b => (fst a <= fst b)%N) (insert_index n kv l).
Proof.
  induction 1 as [|[m kv'] l Hs IH Hhd]; simpl.
  - repeat constructor.
  - destruct (N.leb_spec n m).
    + constructor; [constructor; assumption|]. constructor. assumption.
    + constructor; [exact IH|].
      destruct l as [|[m' kv''] l]; simpl.
      * constructor. simpl. lia.
      * inversion Hhd; subst. destruct (N.leb n m'); constructor; simpl in *; lia.
Qed.

Lemma index_entries_key {A} (o : jsobj A) (n : N) (kv : string * A) :
  In (n, kv) (index_entries o) -> array_index (fst kv) = Some n.
Proof.
  induction o as [|[k v] o IH]; simpl; [contradiction|].
  destruct (array_index k) eqn:E; [|exact IH].
  intros H. apply In_insert_index in H as [[= -> ->]|H]; auto.
Qed.

Lemma Object_entries_perm {A} (o : jsobj A) : Permutation (Object_entries o) o.
Proof.
  unfold Object_entries, named_entries.
  induction o as [|[k v] o IH]; simpl; [constructor|].
  destruct (array_index k).
  - rewrite (Permutation_map snd (insert_index_perm n (k, v) (index_entries o))).
    simpl. now constructor.
  - rewrite <- Permutation_middle. now constructor.
Qed.

(** [Object.entries] lists every own property once: first those whose key
    is an array index, by ascending index, then the others in creation
    order.  So every namespace is visited once by a request, and every
    constraint is tested. *)
Theorem Object_entries_order {A} (o : jsobj A) :
  Permutation (Object_entries o) o /\
  Object_entries o = (map snd (index_entries o) ++ named_entries o)%list /\
  Sorted (fun a b => (fst a <= fst b)%N) (index_entries o) /\
  (forall n kv, In (n, kv) (index_entries o) -> array_index (fst kv) = Some n) /\
  named_entries o =
    filter (fun kv => match array_index (fst kv) with Some _ => false | None => true end) o.
Proof.
  split; [|split; [reflexivity|split; [|split; [apply index_entries_key | reflexivity]]]].
  - apply Object_entries_perm.
  - induction o as [|[k v] o IH]; simpl; [constructor|].
    destruct (array_index k); [now apply insert_index_sorted | exact IH].
Qed.

(** ** Parameter matcher *)

Lemma every_param_forallb (observed : jsval) (es : list (string * jsval)) :
  observed <> VNull -> observed <> VUndef ->
  every_param observed es = Normal (forallb (constraint_holds observed) es).
Proof.
  intros Hn Hu. induction es as [|[key value] es IH]; [reflexivity|].
  cbn [every_param forallb]. unfold constraint_holds at 1. cbn [fst snd].
  destruct (js_get observed key) as [x|e] eqn:Hg.
  - cbn [bind]. destruct (strict_eq x value); [exact IH | reflexivity].
  - destruct observed; simpl in Hg; congruence.
Qed.

Lemma forallb_Permutation {A} (f : A -> bool) (l l' : list A) :
  Permutation l l' -> forallb f l = forallb f l'.
Proof.
  induction 1; simpl; try congruence.
  destruct (f x), (f y); reflexivity.
Qed.

Lemma forallb_agree {A} (f g : A -> bool) (l : list A) :
  (forall x, In x l -> f x = g x) -> forallb f l = forallb g l.
Proof.
  induction l as [|x l IH]; intros H; [reflexivity|]. simpl.
  rewrite (H x) by (simpl; auto). f_equal. apply IH. intros y Hy. apply H. simpl; auto.
Qed.

Lemma every_param_true (observed : jsval) (es : list (string * jsval)) :
  every_param observed es = Normal true ->
  forall kv, In kv es -> constraint_holds observed kv = true.
Proof.
  induction es as [|[key value] es IH]; [contradiction|].
  cbn [every_param]. intros H kv [<-|Hin].
  - unfold constraint_holds. cbn [fst snd].
    destruct (js_get observed key) as [x|e]; [|discriminate].
    cbn [bind] in H. destruct (strict_eq x value); [reflexivity | discriminate].
  - apply IH; [|exact Hin].
    destruct (js_get observed key) as [x|e]; [|discriminate].
    cbn [bind] in H. destruct (strict_eq x value); [exact H | discriminate].
Qed.

Lemma js_get_string_object (o : jsobj string) (k : string) :
  exists x, js_get (string_object o) k = Normal x /\
            (x = VUndef \/ (exists s, x = VStr s) \/ exists b, x = VBuiltin b).
Proof.
  unfold string_object, js_get.
  assert (H : own_get (map (fun kv => (fst kv, VStr (snd kv))) o) k =
              option_map VStr (own_get o k)).
  { induction o as [|[k' v] o IH]; simpl; [reflexivity|].
    destruct (String.eqb k' k); [reflexivity | exact IH]. }
  rewrite H. destruct (own_get o k); simpl; eexists; split; try reflexivity; eauto.
  destruct (inherited k); eauto.
Qed.

Section ParameterMatcher.
Context {P : Platform}.

Lemma matchParams_forallb (observed : jsval) (e : jsobj jsval) :
  observed <> VNull -> observed <> VUndef ->
  matchParams observed (Some e) = Normal (forallb (constraint_holds observed) e).
Proof.
  intros H1 H2. cbn [matchParams]. rewrite every_param_forallb by assumption.
  f_equal. apply forallb_Permutation. apply Object_entries_perm.
Qed.

(** [matchParams] on a decoded value that is not [null]: without
    constraints it matches; with constraints it returns, and matches
    exactly when every constraint is strictly equal to the observed
    property of its key.  Observed keys that are not constrained play no
    part: setting one leaves the result as it is. *)
Theorem matchParams_partial (observed : jsval) (e : jsobj jsval) :
  observed <> VNull -> observed <> VUndef ->
  matchParams observed None = Normal true /\
  matchParams observed (Some e) = Normal (forallb (constraint_holds observed) e) /\
  (forall o k v, observed = VObj o -> ~ In k (map fst e) ->
                 matchParams (VObj (obj_set o k v)) (Some e) = matchParams observed (Some e)).
Proof.
  intros Hn Hu. split; [reflexivity|].
  split; [now apply matchParams_forallb|].
  intros o k v -> Hk. rewrite !matchParams_forallb by discriminate. f_equal.
  apply forallb_agree. intros [k' v'] Hin. unfold constraint_holds. cbn [fst snd js_get].
  rewrite own_get_obj_set_neq; [reflexivity|].
  intros ->. apply Hk. now apply (in_map fst) in Hin.
Qed.

(** Constraints that no request satisfies.  A constraint whose value is an
    array or an object fails on every body and query, the comparison being
    by identity; a constraint on a query parameter whose value is a number,
    a boolean or [null] fails too, the query parameters being strings. *)
Theorem unsatisfiable_constraints (e : jsobj jsval) (k : string) (v : jsval) :
  In (k, v) e ->
  (structured v = true -> forall observed, matchParams observed (Some e) <> Normal true) /\
  (not_a_string v = true ->
   forall o, matchParams (string_object o) (Some e) = Normal false).
Proof.
  intros Hin.
  assert (Hin' : In (k, v) (Object_entries e)).
  { eapply Permutation_in; [|exact Hin]. symmetry. apply Object_entries_perm. }
  split.
  - intros Hs observed H. cbn [matchParams] in H.
    pose proof (every_param_true _ _ H _ Hin') as Hc.
    unfold constraint_holds in Hc. cbn [fst snd] in Hc.
    destruct (js_get observed k) as [x|]; [|discriminate].
    destruct v; try discriminate; destruct x; discriminate.
  - intros Hs o.
    rewrite matchParams_forallb by discriminate.
    f_equal. apply not_true_is_false. intros Hall.
    rewrite forallb_forall in Hall. specialize (Hall _ Hin).
    unfold constraint_holds in Hall. cbn [fst snd] in Hall.
    destruct (js_get_string_object o k) as (x & Hx & Hcases).
    rewrite Hx in Hall.
    destruct Hcases as [-> | [[s ->] | [b ->]]]; destruct v; discriminate.
Qed.

End ParameterMatcher.

Lemma matchParams_partial_witness :
  matchParams (VObj [("role", VStr "admin"); ("extra", VStr "x")])
              (Some [("role", VStr "admin")]) = Normal true /\
  matchParams (VObj [("role", VStr "user")])
              (Some [("role", VStr "admin")]) = Normal false.
Proof.
  split.
  - exact (proj1 (proj2 (@matchParams_partial
             (VObj [("role", VStr "admin"); ("extra", VStr "x")])
             [("role", VStr "admin")] ltac:(discriminate) ltac:(discriminate)))).
  - exact (proj1 (proj2 (@matchParams_partial
             (VObj [("role", VStr "user")])
             [("role", VStr "admin")] ltac:(discriminate) ltac:(discriminate)))).
Defined.

Lemma unsatisfiable_constraints_witness :
  matchParams (string_object [("page", "1")]) (Some [("page", VNum 1)]) = Normal false.
Proof.
  exact (proj2 (@unsatisfiable_constraints [("page", VNum 1)] "page" (VNum 1)
                  (or_introl eq_refl)) eq_refl [("page", "1")]).
Defined.

(** ** Decoding of query strings and forms *)

Lemma own_get_app {A} (l l' : jsobj A) (k : string) :
  own_get (app l l') k = match own_get l k with Some v => Some v | None => own_get l' k end.
Proof.
  induction l as [|[k' v] l IH]; simpl; [reflexivity|].
  destruct (String.eqb k' k); [reflexivity | exact IH].
Qed.

Lemma own_get_obj_set {A} (o : jsobj A) (k k' : string) (v : A) :
  own_get (obj_set o k v) k' = if String.eqb k k' then Some v else own_get o k'.
Proof.
  destruct (String.eqb_spec k k') as [->|Hne].
  - apply own_get_obj_set_eq.
  - now apply own_get_obj_set_neq.
Qed.

Lemma In_obj_set_names {A} (o : jsobj A) (k k' : string) (v : A) :
  In k' (map fst (obj_set o k v)) -> In k' (map fst o) \/ k' = k.
Proof.
  induction o as [|[k0 v0] o IH]; simpl.
  - intros [<-|[]]. now right.
  - destruct (String.eqb k0 k); simpl; intros [<-|H]; auto.
    destruct (IH H); auto.
Qed.

Lemma NoDup_obj_set {A} (o : jsobj A) (k : string) (v : A) :
  NoDup (map fst o) -> NoDup (map fst (obj_set o k v)).
Proof.
  induction o as [|[k0 v0] o IH]; simpl; intros H.
  - repeat constructor. auto.
  - inversion H as [|? ? Hnin Hnd]; subst.
    destruct (String.eqb_spec k0 k) as [->|Hne]; simpl; [exact H|].
    constructor; [|now apply IH].
    intros Hin. apply In_obj_set_names in Hin as [Hin|Heq]; auto.
Qed.

(** [Object.fromEntries] keeps, for a key given several times, the value
    given last, and makes an object with each key once: of the query
    string [a=1&a=2] the handler sees [a] as the string [2]. *)
Theorem fromEntries_last_wins {A} (es : list (string * A)) (k : string) :
  own_get (Object_fromEntries es) k = own_get (rev es) k /\
  NoDup (map fst (Object_fromEntries es)).
Proof.
  unfold Object_fromEntries.
  assert (H : forall acc : jsobj A,
             own_get (fold_left (fun o kv => obj_set o (fst kv) (snd kv)) es acc) k =
             match own_get (rev es) k with Some v => Some v | None => own_get acc k end).
  { induction es as [|[k0 v0] es IH]; intros acc; [reflexivity|].
    cbn [fold_left rev fst snd]. rewrite IH, own_get_app, own_get_obj_set.
    destruct (own_get (rev es) k); [reflexivity|]. simpl.
    destruct (String.eqb k0 k); reflexivity. }
  split.
  - rewrite H. now destruct (own_get (rev es) k).
  - clear H.
    assert (Hn : forall acc : jsobj A, NoDup (map fst acc) ->
                 NoDup (map fst (fold_left (fun o kv => obj_set o (fst kv) (snd kv)) es acc))).
    { induction es as [|[k0 v0] es IH]; intros acc Hacc; [exact Hacc|].
      cbn [fold_left]. apply IH. now apply NoDup_obj_set. }
    apply Hn. constructor.
Qed.

(** ** Hostnames and namespaces *)

Lemma lower_char_not_upper (c : ascii) : is_upper (lower_char c) = false.
Proof. destruct c as [[] [] [] [] [] [] [] []]; reflexivity. Qed.

Lemma toLowerCase_no_upper (s : string) : no_upper (toLowerCase s) = true.
Proof.
  induction s as [|c s IH]; [reflexivity|].
  unfold no_upper, toLowerCase in *. simpl. now rewrite lower_char_not_upper, IH.
Qed.

Lemma startsWith_no_upper (p s : string) :
  startsWith p s = true -> no_upper s = true -> no_upper p = true.
Proof.
  revert s. induction p as [|a p IH]; intros [|b s]; simpl; try reflexivity;
    try discriminate.
  unfold no_upper. simpl. intros H Hs.
  apply andb_true_iff in H as [Hab Hp]. apply andb_true_iff in Hs as [Hb Hs].
  apply Ascii.eqb_eq in Hab. subst b. rewrite Hb. simpl. now apply (IH s).
Qed.

Lemma includes_no_upper (s sub : string) :
  includes s sub = true -> no_upper s = true -> no_upper sub = true.
Proof.
  induction s as [|c s IH]; cbn [includes]; intros H Hs.
  - rewrite orb_false_r in H. now apply (startsWith_no_upper _ _ H).
  - apply orb_true_iff in H as [H|H]; [now apply (startsWith_no_upper _ _ H)|].
    apply IH; [exact H|]. unfold no_upper in *. simpl in Hs.
    now apply andb_true_iff in Hs as [_ Hs].
Qed.

Section Hosts.
Context {P : Platform} {L : PlatformLaws P}.

Lemma scanNamespaces_outside (u : URL) (method : string) (qp bp : jsval)
      (entries : list (string * RouteMap)) :
  (forall name routes, In (name, routes) entries -> includes (hostname u) name = false) ->
  scanNamespaces u method qp bp entries = ([], Normal None).
Proof.
  induction entries as [|[name routes] entries IH]; intros H; [reflexivity|].
  cbn [scanNamespaces]. rewrite (H name routes) by (simpl; auto).
  apply IH. intros n r Hin. apply (H n r). simpl; auto.
Qed.

(** A request whose hostname contains the name of no namespace gets the
    404 response, whatever the routes are: none of their paths is made a
    regular expression and no handler runs, so nothing can fail. *)
Theorem foreign_host_not_found
        (st : FetchMocker) (input : FetchInput) (init : RequestInit) (u : URL) :
  URL_new (input_url input) = Normal u ->
  (forall name routes, In (name, routes) (namespaces st) ->
                       includes (hostname u) name = false) ->
  snd (mockFetch st input init) = Normal not_found.
Proof.
  intros Hu Hout. rewrite mockFetch_result. unfold routeRequest. rewrite Hu.
  destruct (decodeBody (request_method init) init) as [l1 bp].
  rewrite scanNamespaces_outside.
  - cbn [snd]. apply Response_new_plain. now left.
  - intros name routes Hin. apply (Hout name routes). now apply In_Object_entries.
Qed.

(** The name of a namespace is compared with the hostname as it is: when
    the hostname is in lower case, as the one of a parsed URL, a namespace
    whose name has an upper-case letter takes part in no request, and its
    routes are skipped. *)
Theorem uppercase_namespace_skipped
        (u : URL) (method : string) (qp bp : jsval) (name : string) (routes : RouteMap)
        (rest : list (string * RouteMap)) :
  no_upper (hostname u) = true -> no_upper name = false ->
  includes (hostname u) name = false /\
  scanNamespaces u method qp bp ((name, routes) :: rest) =
  scanNamespaces u method qp bp rest.
Proof.
  intros Hh Hn.
  assert (Hin : includes (hostname u) name = false).
  { destruct (includes (hostname u) name) eqn:E; [|reflexivity].
    rewrite (includes_no_upper _ _ E Hh) in Hn. discriminate. }
  split; [exact Hin|]. cbn [scanNamespaces]. now rewrite Hin.
Qed.

End Hosts.

Lemma foreign_host_not_found_witness :
  snd (mockFetch Sample.api_bad_pattern (InputString "https://blog.com/users")
         Sample.no_init) = Normal not_found.
Proof.
  apply (@foreign_host_not_found Node.platform NodeFacts.laws Sample.api_bad_pattern
           (InputString "https://blog.com/users") Sample.no_init
           {| hostname := "blog.com"; pathname := "/users"; searchParams := [] |}
           eq_refl).
  intros name routes [H|[]]. now injection H as <- _.
Defined.

Lemma uppercase_namespace_skipped_witness :
  includes "myapi" "myApi" = false /\
  snd (fetch (Sample.register Sample.started "myApi" "GET" "/users" Sample.users no_options)
         (InputString "https://myApi/users") Sample.no_init)
  = Intercepted (Normal not_found).
Proof.
  split.
  - exact (proj1 (@uppercase_namespace_skipped Node.platform
                    {| hostname := "myapi"; pathname := "/users"; searchParams := [] |}
                    "GET" (VObj []) (VObj []) "myApi" [] [] eq_refl eq_refl)).
  - reflexivity.
Defined.

(** ** Handler execution *)

Section HandlerFailures.
Context {P : Platform} {L : PlatformLaws P}.

(** What [executeHandler] makes of a failure.  A handler that throws a
    value with a readable message, or returns nothing, is answered by the
    500 response and an error line.  When the handler returns and it is
    [new Response] that rejects its result, the line of success is
    logged first, then the error line, and the answer is the 500 response.
    A handler that throws [null] or [undefined] makes [executeHandler]
    itself throw. *)
Theorem handler_failure_answers_500 (h : Handler) (ctx : RequestContext) :
  (forall e m, h ctx = Throw e -> error_message e = Normal m ->
               executeHandler h ctx =
               ([(ERROR, "Error executing handler: " ++ m)], Normal server_error)) /\
  (h ctx = Normal None ->
   exists m, executeHandler h ctx =
             ([(ERROR, "Error executing handler: " ++ m)], Normal server_error)) /\
  (forall result e,
      h ctx = Normal (Some result) -> snd (executeHandler_try h ctx) = Throw e ->
      exists m,
        executeHandler h ctx =
        ([(LOG, "Handler executed successfully with status "
                  ++ string_of_Z match res_status result with Some s => s | None => 200 end
                  ++ ".");
          (ERROR, "Error executing handler: " ++ m)], Normal server_error)) /\
  (h ctx = Throw ThrownNullish -> exists e, snd (executeHandler h ctx) = Throw e).
Proof.
  unfold executeHandler, executeHandler_try. split; [|split; [|split]].
  - intros e m -> ->. rewrite server_error_response. reflexivity.
  - intros ->. cbn [error_message]. rewrite server_error_response.
    eexists. reflexivity.
  - intros result e ->. cbv zeta.
    match goal with |- context [Response_new ?b ?s ?hs] =>
      destruct (Response_new b s hs) as [r|e'] eqn:Hr end; cbn [snd]; [discriminate|].
    intros _. destruct (Response_new_throws _ _ _ Hr) as (n & m & ->).
    cbn [error_message]. rewrite server_error_response. eexists. reflexivity.
  - intros ->. cbn [error_message snd]. eexists. reflexivity.
Qed.

End HandlerFailures.

Lemma handler_failure_answers_500_witness :
  executeHandler status_999
    {| queryParams := VObj []; bodyParams := VObj []; params := [] |} =
  ([(LOG, "Handler executed successfully with status 999.");
    (ERROR, "Error executing handler: The status provided is outside the range [200, 599].")],
   Normal server_error).
Proof.
  destruct (proj1 (proj2 (proj2 (@handler_failure_answers_500 Node.platform NodeFacts.laws
              status_999 {| queryParams := VObj []; bodyParams := VObj []; params := [] |})))
              {| response := VStr "x"; res_status := Some 999; res_headers := None |}
              (JsError "RangeError" "The status provided is outside the range [200, 599].")
              eq_refl eq_refl) as [m H].
  reflexivity.
Defined.

(** ** Bodies of other methods *)

Section OtherMethods.
Context {P : Platform}.

(** The body of a call that is neither POST nor PUT is never decoded: the
    body parameters are the empty object and nothing is logged, whatever
    the content type.  So a constraint on a body parameter with a string
    value fails for every such call. *)
Theorem body_ignored_unless_post_put (method : string) (init : RequestInit) :
  method <> "POST" -> method <> "PUT" ->
  decodeBody method init = ([], VObj []) /\
  (forall e k s, In (k, VStr s) e ->
                 matchParams (snd (decodeBody method init)) (Some e) = Normal false).
Proof.
  intros H1 H2.
  assert (Hd : decodeBody method init = ([], VObj [])).
  { unfold decodeBody. destruct (init_body init) as [b|]; [|reflexivity].
    destruct (String.eqb_spec method "POST"); [contradiction|].
    destruct (String.eqb_spec method "PUT"); [contradiction|].
    now rewrite andb_false_r. }
  split; [exact Hd|]. intros e k s Hin. rewrite Hd. cbn [snd].
  assert (Hm : matchParams (VObj []) (Some e) =
               Normal (forallb (constraint_holds (VObj [])) e)).
  { apply matchParams_forallb; discriminate. }
  rewrite Hm. f_equal. apply not_true_is_false. intros Hall.
  rewrite forallb_forall in Hall. specialize (Hall _ Hin).
  unfold constraint_holds in Hall. cbn [fst snd js_get own_get] in Hall.
  destruct (inherited k); discriminate Hall.
Qed.

(** A call of the global fetch on a state where the flag and the installed
    function agree: while the server is not running the call is handed to
    the original fetch and leaves no trace, not even in the call log;
    while it is running the call is resolved by the mocker and recorded. *)
Theorem intercepted_while_running
        (st : FetchMocker) (input : FetchInput) (init : RequestInit) :
  consistent st ->
  (isServerRunning st = false -> fetch st input init = (st, Delegated)) /\
  (isServerRunning st = true ->
   snd (fetch st input init) = Intercepted (snd (mockFetch st input init)) /\
   calls (fst (fetch st input init)) = app (calls st) [call_of input init]).
Proof.
  intros [H1 H2]. split.
  - intros Hoff. unfold fetch. destruct (global_fetch st); [reflexivity|].
    rewrite H2 in Hoff by reflexivity. discriminate.
  - intros Hon. unfold fetch. rewrite (H1 Hon).
    pose proof (mockFetch_calls st input init) as Hc.
    destruct (mockFetch st input init). auto.
Qed.

End OtherMethods.

Lemma body_ignored_unless_post_put_witness :
  decodeBody "DELETE" (delete_with [("Content-Type", "text/plain")] "hi") = ([], VObj []).
Proof.
  refine (proj1 (@body_ignored_unless_post_put Node.platform "DELETE"
                   (delete_with [("Content-Type", "text/plain")] "hi") _ _));
    discriminate.
Defined.

Lemma intercepted_while_running_witness :
  fetch constructor (InputString "https://api.com/users") Sample.no_init =
  (constructor, Delegated).
Proof.
  refine (proj1 (@intercepted_while_running Node.platform constructor
                   (InputString "https://api.com/users") Sample.no_init _) eq_refl).
  split; discriminate.
Defined.

(** ** Handles and failing routes *)

Section Handles.
Context {P : Platform}.

(** After [reset()], [stop()] or [restart()] no namespace is left, so a
    registration through an object that [namespace(name)] returned before
    throws, whatever the name; calling [namespace(name)] again, for a name
    that is not a member of [Object.prototype], makes registrations
    possible again. *)
Theorem handles_dead_after_reset
        (st : FetchMocker) (name method path : string) (h : Handler) (o : RouteOptions) :
  (exists e, addRoute (reset st) name method path h o = Throw e) /\
  (exists e, addRoute (stop st) name method path h o = Throw e) /\
  (exists e, addRoute (restart st) name method path h o = Throw e) /\
  (inherited name = false ->
   exists st', addRoute (namespace (reset st) name) name method path h o = Normal st').
Proof.
  assert (H : forall st0, namespaces st0 = [] ->
                          exists e, addRoute st0 name method path h o = Throw e).
  { intros st0 H0. unfold addRoute, namespaces_get. rewrite H0. simpl.
    destruct (inherited name); eauto. }
  split; [now apply H|]. split; [now apply H|]. split; [now apply H|].
  intros Hname. unfold addRoute, namespace, namespaces_get. simpl. rewrite Hname.
  simpl. rewrite String.eqb_refl. simpl. eauto.
Qed.

(** The scan of a list of routes is the scan of its first part, and, when
    that one ends without an answer, the scan of the rest. *)
Lemma scanRoutes_app (ns : string) (u : URL) (method : string) (qp bp : jsval)
      (before rest : list (string * Route)) :
  scanRoutes ns u method qp bp (app before rest) =
  match scanRoutes ns u method qp bp before with
  | (_, Normal None) => scanRoutes ns u method qp bp rest
  | answered => answered
  end.
Proof.
  induction before as [|[k r] before IH]; cbn [app scanRoutes].
  - reflexivity.
  - destruct (nth_error (split " " k) 1) as [routePath|]; [|reflexivity].
    destruct (matchPath (pathname u) routePath) as [mt|e]; [|reflexivity].
    destruct (if String.eqb (nth 0 (split " " k) "") method then mt else None) as [ps|];
      [|exact IH].
    destruct (okq <- matchParams qp (expectedQueryParams r) ;;
              if okq then matchParams bp (expectedBodyParams r) else Normal false)
      as [[|]|e]; [|exact IH|reflexivity].
    destruct (executeHandler _ _) as [l [resp|e]]; reflexivity.
Qed.

(** The path of a route is matched before its method is compared with the
    one of the request: a route whose path is not a regular expression
    makes the scan of its namespace throw for a request of any method,
    and the routes after it are not tried, unless a route registered
    before it answers or throws, in which case the scan ends there. *)
Theorem invalid_pattern_fails_every_method
        (ns : string) (u : URL) (method : string) (qp bp : jsval)
        (before : list (string * Route))
        (m routePath : string) (route : Route) (rest : list (string * Route))
        (e : thrown) :
  space_free m = true -> space_free routePath = true ->
  matchPath (pathname u) routePath = Throw e ->
  (scanRoutes ns u method qp bp before = ([], Normal None) ->
   scanRoutes ns u method qp bp (app before ((m ++ " " ++ routePath, route) :: rest))
   = ([], Throw e)) /\
  (forall l r, scanRoutes ns u method qp bp before = (l, r) -> r <> Normal None ->
   scanRoutes ns u method qp bp (app before ((m ++ " " ++ routePath, route) :: rest))
   = (l, r)) /\
  scanRoutes ns u method qp bp ((m ++ " " ++ routePath, route) :: rest) = ([], Throw e).
Proof.
  intros Hm Hp He.
  assert (Hbad : scanRoutes ns u method qp bp ((m ++ " " ++ routePath, route) :: rest)
                 = ([], Throw e)).
  { cbn [scanRoutes].
    change (m ++ " " ++ routePath) with (m ++ String " " routePath).
    rewrite (split_cons " " m _ Hm), (split_single " " routePath Hp).
    cbn [nth_error nth]. now rewrite He. }
  split; [|split; [|exact Hbad]].
  - intros Hb. now rewrite scanRoutes_app, Hb.
  - intros l r Hb Hr. rewrite scanRoutes_app, Hb.
    destruct r as [[resp|]|e']; [reflexivity | now elim Hr | reflexivity].
Qed.

End Handles.

Lemma invalid_pattern_fails_every_method_witness :
  scanRoutes "api" Sample.api1_users "POST" (VObj []) (VObj [])
             [("PUT /users", route_of Sample.users no_options);
              ("GET /users/(", route_of Sample.users no_options);
              ("POST /users", route_of Sample.created no_options)] =
  ([], Throw (JsError "SyntaxError" "Invalid regular expression")).
Proof.
  destruct (@invalid_pattern_fails_every_method Node.platform "api" Sample.api1_users
              "POST" (VObj []) (VObj [])
              [("PUT /users", route_of Sample.users no_options)]
              "GET" "/users/(" (route_of Sample.users no_options)
              [("POST /users", route_of Sample.created no_options)]
              (JsError "SyntaxError" "Invalid regular expression")
              eq_refl eq_refl eq_refl) as (Hthrows & _).
  exact (Hthrows eq_refl).
Defined.
